(** * tool4word: the two DOCX transformers, embedded and verified

    [docx-table-title.py] recolours the header row of every table;
    [top-page.py] copies headers, footers and the cover page of a template
    into a target document and substitutes [$Name] placeholders.

    Both scripts work on lxml element trees.  An element is modelled with its
    tag, its attributes in document order, its text ([None] or a string, as
    lxml has it) and its ordered children.  Tags are written in their
    prefixed form ([w:p]) instead of the Clark form [qn] produces.  Element
    tails are not modelled: WordprocessingML carries no text between
    elements.  Strings are the UTF-8 bytes of the Python strings; substring
    search and replacement on valid UTF-8 agree with the code-point
    versions. *)

From Stdlib Require Import String Ascii List Bool Arith Lia ZArith DecimalString.
Import ListNotations.

Local Open Scope string_scope.
Local Open Scope list_scope.

(** ** Python strings *)

Module PyStr.

(** [sub in s] *)
Fixpoint contains (sub s : string) : bool :=
  prefix sub s ||
  match s with
  | EmptyString => false
  | String _ s' => contains sub s'
  end.

Fixpoint drop (n : nat) (s : string) : string :=
  match n, s with
  | O, _ => s
  | S _, EmptyString => EmptyString
  | S k, String _ s' => drop k s'
  end.

(** [s.replace(old, new)] for a non-empty [old]: the leftmost occurrence is
    replaced, the scan resumes after it.  [skip] counts the characters of a
    matched occurrence still to be passed over. *)
Fixpoint replace_go (old new : string) (skip : nat) (s : string) : string :=
  match s with
  | EmptyString => EmptyString
  | String c s' =>
      match skip with
      | S k => replace_go old new k s'
      | O =>
          if prefix old s
          then new ++ replace_go old new (String.length old - 1) s'
          else String c (replace_go old new 0 s')
      end
  end.

(** With an empty [old] Python puts [new] before every character and at the
    end. *)
Fixpoint intersperse (new s : string) : string :=
  match s with
  | EmptyString => new
  | String c s' => new ++ String c (intersperse new s')
  end.

Definition replace (old new s : string) : string :=
  match old with
  | EmptyString => intersperse new s
  | String _ _ => replace_go old new 0 s
  end.

(** the truth value of a string *)
Definition truthy (s : string) : bool :=
  match s with EmptyString => false | String _ _ => true end.

End PyStr.

(** ** lxml elements *)

#[local] Set Warnings "-register-all".

Inductive elem : Type :=
| Elem (tag : string) (attrib : list (string * string))
       (text : option string) (children : list elem).

Definition tag (e : elem) : string := let 'Elem t _ _ _ := e in t.
Definition attrib (e : elem) : list (string * string) := let 'Elem _ a _ _ := e in a.
Definition text (e : elem) : option string := let 'Elem _ _ x _ := e in x.
Definition children (e : elem) : list elem := let 'Elem _ _ _ c := e in c.

(** [OxmlElement(tag)]: a fresh element without attributes, text or children *)
Definition OxmlElement (t : string) : elem := Elem t [] None [].

Definition has_tag (t : string) (e : elem) : bool := String.eqb (tag e) t.

(** [if t.text:] *)
Definition has_text (e : elem) : bool :=
  match text e with
  | Some s => PyStr.truthy s
  | None => false
  end.

(** the text read where the code has already checked that it is truthy *)
Definition text_or_empty (e : elem) : string :=
  match text e with Some s => s | None => "" end.

(** [e.text = s] *)
Definition set_text (s : string) (e : elem) : elem :=
  Elem (tag e) (attrib e) (Some s) (children e).

(** [e.set(k, v)]: an existing attribute keeps its place, a new one is
    added at the end. *)
Fixpoint attr_set (k v : string) (a : list (string * string)) : list (string * string) :=
  match a with
  | [] => [(k, v)]
  | (k', v') :: a' =>
      if String.eqb k' k then (k, v) :: a' else (k', v') :: attr_set k v a'
  end.

Fixpoint attr_get (k : string) (a : list (string * string)) : option string :=
  match a with
  | [] => None
  | (k', v') :: a' => if String.eqb k' k then Some v' else attr_get k a'
  end.

Definition set_attr (k v : string) (e : elem) : elem :=
  Elem (tag e) (attr_set k v (attrib e)) (text e) (children e).

Definition get_attr (k : string) (e : elem) : option string := attr_get k (attrib e).

Definition set_children (cs : list elem) (e : elem) : elem :=
  Elem (tag e) (attrib e) (text e) cs.

(** [e.append(c)] *)
Definition append_child (c : elem) (e : elem) : elem :=
  set_children (children e ++ [c]) e.

(** [e.find(tag)]: the first direct child with that tag *)
Definition find_child (t : string) (e : elem) : option elem :=
  List.find (has_tag t) (children e).

(** [e.findall(tag)]: the direct children with that tag *)
Definition findall (t : string) (e : elem) : list elem :=
  List.filter (has_tag t) (children e).

Fixpoint update_first (pr : elem -> bool) (f : elem -> elem) (l : list elem)
  : list elem :=
  match l with
  | [] => []
  | x :: l' => if pr x then f x :: l' else x :: update_first pr f l'
  end.

(** [c = e.find(t)]; when there is none a fresh one is appended; then [f]
    mutates [c] *)
Definition with_child_appended (t : string) (f : elem -> elem) (e : elem) : elem :=
  match find_child t e with
  | Some _ => set_children (update_first (has_tag t) f (children e)) e
  | None => append_child (f (OxmlElement t)) e
  end.

(** the same with [e.insert(0, c)] for a fresh one *)
Definition with_child_first (t : string) (f : elem -> elem) (e : elem) : elem :=
  match find_child t e with
  | Some _ => set_children (update_first (has_tag t) f (children e)) e
  | None => set_children (f (OxmlElement t) :: children e) e
  end.

(** mutate [e.findall(t)[n]] among the children [l], when it exists *)
Fixpoint update_nth_tagged (t : string) (n : nat) (f : elem -> elem) (l : list elem)
  : list elem :=
  match l with
  | [] => []
  | x :: l' =>
      if has_tag t x then
        match n with
        | O => f x :: l'
        | S k => x :: update_nth_tagged t k f l'
        end
      else x :: update_nth_tagged t n f l'
  end.

(** [c = e.find(t)]; [f] mutates [c] when there is one *)
Definition with_existing_child (t : string) (f : elem -> elem) (e : elem) : elem :=
  match find_child t e with
  | Some _ => set_children (update_first (has_tag t) f (children e)) e
  | None => e
  end.

(** [cs = e.findall(t)]; [f1] mutates [cs[0]] if [len(cs) >= 1], [f2]
    mutates [cs[1]] if [len(cs) >= 2] *)
Definition update_first_two (t : string) (f1 f2 : elem -> elem) (e : elem) : elem :=
  let e1 :=
    if Nat.leb 1 (List.length (findall t e))
    then set_children (update_nth_tagged t 0 f1 (children e)) e
    else e in
  if Nat.leb 2 (List.length (findall t e))
  then set_children (update_nth_tagged t 1 f2 (children e1)) e1
  else e1.

(** every direct child with the tag [t] removed *)
Definition remove_children (t : string) (e : elem) : elem :=
  set_children (List.filter (fun c => negb (has_tag t c)) (children e)) e.

(** mutate every direct child with the tag [t] *)
Definition map_tagged (t : string) (f : elem -> elem) (e : elem) : elem :=
  set_children (List.map (fun c => if has_tag t c then f c else c) (children e)) e.

(** ** Element identity

    The scripts hold on to element objects while they mutate the tree.  An
    object is identified by its path from the element the traversal started
    at: the child indices to follow.  Setting a text or an attribute leaves
    every path in place. *)

Definition path := list nat.

Fixpoint get (p : path) (e : elem) : option elem :=
  match p with
  | [] => Some e
  | i :: p' =>
      match nth_error (children e) i with
      | Some c => get p' c
      | None => None
      end
  end.

Fixpoint list_update {A} (i : nat) (f : A -> A) (l : list A) : list A :=
  match l, i with
  | [], _ => []
  | x :: l', O => f x :: l'
  | x :: l', S j => x :: list_update j f l'
  end.

(** mutate the object at path [p] in place *)
Fixpoint update (p : path) (f : elem -> elem) (e : elem) : elem :=
  match p with
  | [] => f e
  | i :: p' => set_children (list_update i (update p' f) (children e)) e
  end.

(** [e.iter(tag)]: [e] itself and its descendants in document order, those
    with the tag [t]; each as its path from [e]. *)
Fixpoint iter (t : string) (e : elem) : list path :=
  match e with
  | Elem tg _ _ cs =>
      (if String.eqb tg t then [[]] else []) ++
      (fix over (i : nat) (l : list elem) : list path :=
         match l with
         | [] => []
         | c :: l' => List.map (cons i) (iter t c) ++ over (S i) l'
         end) 0 cs
  end.

(** the descendants' part of [iter], children numbered from [i] *)
Fixpoint iter_children (t : string) (i : nat) (l : list elem) : list path :=
  match l with
  | [] => []
  | c :: l' => List.map (cons i) (iter t c) ++ iter_children t (S i) l'
  end.

(** [enumerate(l)] *)
Definition enumerate {A} (l : list A) : list (nat * A) :=
  List.combine (List.seq 0 (List.length l)) l.

(** ** Template Applier: [DocxFormatter] *)

Module TopPage.

Definition label : string := "販売名".

(** the [w:t] objects that [for run in runs: for t in run.iter('w:t')]
    visits, as paths from the paragraph; an object that lies in two of the
    runs is visited twice *)
Definition text_fragments (para : elem) : list path :=
  List.flat_map
    (fun r =>
       match get r para with
       | Some run => List.map (app r) (iter "w:t" run)
       | None => []
       end)
    (iter "w:r" para).

Definition has_text_at (para : elem) (p : path) : bool :=
  match get p para with
  | Some t => has_text t
  | None => false
  end.

(** [text_elements]: the visited objects with [if t.text:] *)
Definition text_elements (para : elem) : list path :=
  List.filter (has_text_at para) (text_fragments para).

Definition text_at (para : elem) (p : path) : string :=
  match get p para with
  | Some t => text_or_empty t
  | None => ""
  end.

(** [full_text], the texts joined as they are met *)
Definition full_text (para : elem) : string :=
  String.concat "" (List.map (text_at para) (text_elements para)).

Section Formatter.

(** [self.variables]: a dict, in insertion order *)
Variable variables : list (string * string).

Definition token (var : string) : string := "$" ++ var.

Definition has_variable (s : string) : bool :=
  List.existsb (fun kv => PyStr.contains (token (fst kv)) s) variables.

Definition substitute (s : string) : string :=
  List.fold_left (fun acc kv => PyStr.replace (token (fst kv)) (snd kv) acc)
                 variables s.

Definition write_first (new_text : string) (t : elem) : elem :=
  set_attr "xml:space" "preserve" (set_text new_text t).

(** the body of the loop over paragraphs in [_replace_variables_in_element] *)
Definition replace_variables_in_para (para : elem) : elem :=
  match iter "w:r" para with
  | [] => para
  | _ :: _ =>
      let elems := text_elements para in
      let s := full_text para in
      if negb (has_variable s) then para
      else
        match elems with
        | [] => para
        | t0 :: rest =>
            List.fold_left (fun e t => update t (set_text "") e) rest
                           (update t0 (write_first (substitute s)) para)
        end
  end.

Definition _replace_variables_in_element (element : elem) : elem :=
  List.fold_left (fun e p => update p replace_variables_in_para e)
                 (iter "w:p" element) element.

End Formatter.

(** [tab.getparent().remove(tab)] for every [tab] of [run.iter('w:tab')]:
    every descendant with the tag goes, with what it contains *)
Fixpoint remove_descendants (t : string) (e : elem) : elem :=
  match e with
  | Elem tg a x cs =>
      Elem tg a x
        ((fix over (l : list elem) : list elem :=
            match l with
            | [] => []
            | c :: l' =>
                if has_tag t c then over l'
                else remove_descendants t c :: over l'
            end) cs)
  end.

Definition run_has_label (run : elem) : bool :=
  List.existsb
    (fun q =>
       match get q run with
       | Some t => has_text t && PyStr.contains label (text_or_empty t)
       | None => false
       end)
    (iter "w:t" run).

(** the body of the loop over paragraphs in [_remove_tab_before_販売名];
    [runs] is the list taken before any tab is removed.  The path of a run
    still names it after tabs were removed from other runs as long as no run
    of the paragraph lies inside another. *)
Definition remove_tab_in_para (para : elem) : elem :=
  let runs := iter "w:r" para in
  match runs with
  | [] => para
  | _ :: _ =>
      if negb (PyStr.contains label (full_text para)) then para
      else
        List.fold_left
          (fun e ir =>
             let '(i, r) := ir in
             match get r e with
             | Some run =>
                 if run_has_label run then
                   let e1 := update r (remove_descendants "w:tab") e in
                   if Nat.ltb 0 i
                   then update (List.nth (i - 1) runs []) (remove_descendants "w:tab") e1
                   else e1
                 else e
             | None => e
             end)
          (enumerate runs) para
  end.

Definition _remove_tab_before_販売名 (element : elem) : elem :=
  List.fold_left (fun e p => update p remove_tab_in_para e)
                 (iter "w:p" element) element.

(** [_copy_header_element]: the target header loses its children, gets deep
    copies of the source's, then both fixes run on it *)
Section Headers.

Variable variables : list (string * string).

Definition _copy_header_element (source_header target_header : elem) : elem :=
  _remove_tab_before_販売名
    (_replace_variables_in_element variables
       (set_children (children source_header) target_header)).

(** A section as python-docx shows it: the flag, its [w:sectPr] and the four
    header and footer elements.  Every section is taken to have header and
    footer definitions of its own. *)
Record section : Type := Section_ {
  different_first_page_header_footer : bool;
  _sectPr : elem;
  first_page_header : elem;
  header : elem;
  first_page_footer : elem;
  footer : elem
}.

(** [l[i]] with Python's negative indices; [None] is IndexError *)
Definition py_getitem {A} (l : list A) (i : Z) : option A :=
  let n := Z.of_nat (List.length l) in
  if (i <? - n)%Z then None
  else if (i <? 0)%Z then nth_error l (Z.to_nat (i + n))
  else nth_error l (Z.to_nat i).

Definition copy_headers_section (template_section target_section : section) : section :=
  {| different_first_page_header_footer := true;
     _sectPr := _sectPr target_section;
     first_page_header :=
       _copy_header_element (first_page_header template_section)
                            (first_page_header target_section);
     header :=
       _copy_header_element (header template_section) (header target_section);
     first_page_footer := first_page_footer target_section;
     footer := footer target_section |}.

(** [_copy_headers]; [None] when indexing the template's sections raises *)
Fixpoint copy_headers_from (template_sections : list section) (i : nat)
         (target_sections : list section) : option (list section) :=
  match target_sections with
  | [] => Some []
  | target_section :: rest =>
      match py_getitem template_sections
              (Z.min (Z.of_nat i) (Z.of_nat (List.length template_sections) - 1)) with
      | None => None
      | Some template_section =>
          match copy_headers_from template_sections (S i) rest with
          | None => None
          | Some rest' =>
              Some (copy_headers_section template_section target_section :: rest')
          end
      end
  end.

Definition _copy_headers (template_sections target_sections : list section)
  : option (list section) :=
  copy_headers_from template_sections 0 target_sections.

End Headers.

(** *** Footers *)

Definition fldChar (kind : string) : elem :=
  set_attr "w:fldCharType" kind (OxmlElement "w:fldChar").

Definition page_field_paragraph : elem :=
  let jc := set_attr "w:val" "center" (OxmlElement "w:jc") in
  let pPr := append_child jc (OxmlElement "w:pPr") in
  let p := append_child pPr (OxmlElement "w:p") in
  let instrText :=
    set_text " PAGE " (set_attr "xml:space" "preserve" (OxmlElement "w:instrText")) in
  let r := append_child (fldChar "begin") (OxmlElement "w:r") in
  let r2 := append_child instrText (OxmlElement "w:r") in
  let r3 := append_child (fldChar "separate") (OxmlElement "w:r") in
  let t := set_text "1" (OxmlElement "w:t") in
  let r4 := append_child t (OxmlElement "w:r") in
  let r5 := append_child (fldChar "end") (OxmlElement "w:r") in
  append_child r5 (append_child r4 (append_child r3 (append_child r2
    (append_child r p)))).

Definition _create_page_field_footer (footer_element : elem) : elem :=
  append_child page_field_paragraph (set_children [] footer_element).

Definition set_page_number_sectPr (sectPr : elem) : elem :=
  with_child_appended "w:pgNumType"
    (fun pgNumType => set_attr "w:start" "0" (set_attr "w:fmt" "numberInDash" pgNumType))
    sectPr.

Definition _set_page_number_format (s : section) : section :=
  {| different_first_page_header_footer := different_first_page_header_footer s;
     _sectPr := set_page_number_sectPr (_sectPr s);
     first_page_header := first_page_header s;
     header := header s;
     first_page_footer := first_page_footer s;
     footer := footer s |}.

Definition copy_footers_section (target_section : section) : section :=
  let s := _set_page_number_format target_section in
  {| different_first_page_header_footer := true;
     _sectPr := _sectPr s;
     first_page_header := first_page_header s;
     header := header s;
     first_page_footer := set_children [] (first_page_footer s);
     footer := _create_page_field_footer (footer s) |}.

Definition _copy_footers (target_sections : list section) : list section :=
  List.map copy_footers_section target_sections.

(** *** Cover page *)

(** [str(n)] *)
Definition str (n : Z) : string := NilEmpty.string_of_int (Z.to_int n).

(** [int(mm * 56.7)].  The product is a double; for the widths the script
    passes it lies well inside the unit interval above the integer that the
    exact quotient gives, so truncation agrees with integer division. *)
Definition twips (mm : Z) : Z := ((mm * 567) / 10)%Z.

Definition set_width (width_twips : Z) (e : elem) : elem :=
  set_attr "w:type" "dxa" (set_attr "w:w" (str width_twips) e).

Definition _set_cell_width (width_twips : Z) (tc : elem) : elem :=
  with_child_first "w:tcPr"
    (with_child_first "w:tcW" (set_width width_twips)) tc.

Definition set_row_widths (col1_twips col2_twips : Z) (tr : elem) : elem :=
  update_first_two "w:tc"
    (_set_cell_width col1_twips) (_set_cell_width col2_twips) tr.

Definition set_grid_widths (col1_twips col2_twips : Z) (tblGrid : elem) : elem :=
  update_first_two "w:gridCol"
    (set_attr "w:w" (str col1_twips)) (set_attr "w:w" (str col2_twips)) tblGrid.

Definition set_tblPr (total_twips : Z) (tblPr : elem) : elem :=
  with_child_appended "w:tblW" (set_width total_twips)
    (with_child_appended "w:tblLayout" (set_attr "w:type" "fixed") tblPr).

Definition _set_table_column_widths (col1_mm col2_mm : Z) (table_element : elem) : elem :=
  let col1_twips := twips col1_mm in
  let col2_twips := twips col2_mm in
  let total_twips := (col1_twips + col2_twips)%Z in
  with_existing_child "w:tblGrid" (set_grid_widths col1_twips col2_twips)
    (map_tagged "w:tr" (set_row_widths col1_twips col2_twips)
       (with_existing_child "w:tblPr" (set_tblPr total_twips) table_element)).

Section Cover.

(** [etree.tostring(elem, encoding='unicode')], lxml's serializer *)
Variable tostring : elem -> string.

Definition quote : string := String (ascii_of_nat 34) EmptyString.

(** a paragraph whose serialization has both [w:br] and [w:type="page"] *)
Definition has_page_break (e : elem) : bool :=
  let xml_str := tostring e in
  PyStr.contains "w:br" xml_str &&
  PyStr.contains ("w:type=" ++ quote ++ "page" ++ quote) xml_str.

(** A body child as an object: the element with its position in the body
    when the document was loaded, which tells it from an equal sibling. *)
Definition obj : Type := nat * elem.

Fixpoint cover_scan (body : list obj) : list obj :=
  match body with
  | [] => []
  | o :: rest =>
      if has_tag "w:p" (snd o) then
        if has_page_break (snd o) then [o] else o :: cover_scan rest
      else if has_tag "w:tbl" (snd o) then o :: cover_scan rest
      else if has_tag "w:sectPr" (snd o) then []
      else o :: cover_scan rest
  end.

Definition body_objects (body : list elem) : list obj := enumerate body.

Definition _get_cover_page_elements (body : list elem) : list obj :=
  cover_scan (body_objects body).

(** [list(body).index(o)]; [None] is ValueError *)
Fixpoint index_of (o : obj) (l : list obj) : option nat :=
  match l with
  | [] => None
  | x :: l' =>
      if Nat.eqb (fst x) (fst o) then Some 0
      else match index_of o l' with
           | Some n => Some (S n)
           | None => None
           end
  end.

(** [body.remove(o)]; [None] is ValueError *)
Fixpoint remove_obj (o : obj) (l : list obj) : option (list obj) :=
  match l with
  | [] => None
  | x :: l' =>
      if Nat.eqb (fst x) (fst o) then Some l'
      else match remove_obj o l' with
           | Some r => Some (x :: r)
           | None => None
           end
  end.

Fixpoint remove_all (os : list obj) (l : list obj) : option (list obj) :=
  match os with
  | [] => Some l
  | o :: os' =>
      match remove_obj o l with
      | Some l' => remove_all os' l'
      | None => None
      end
  end.

(** [body.insert(n, x)]: past the end it appends *)
Definition insert_at {A} (n : nat) (x : A) (l : list A) : list A :=
  List.firstn n l ++ x :: List.skipn n l.

Variable variables : list (string * string).

(** the loop over [enumerate(template_cover)], carrying the body and
    [first_table] *)
Fixpoint insert_cover (insert_position i : nat) (first_table : bool)
         (template_cover : list elem) (target_body : list elem) : list elem :=
  match template_cover with
  | [] => target_body
  | elem_ :: rest =>
      let new_elem := _replace_variables_in_element variables elem_ in
      let sized := has_tag "w:tbl" new_elem && first_table in
      let new_elem' :=
        if sized then _set_table_column_widths 45 135 new_elem else new_elem in
      insert_cover insert_position (S i) (if sized then false else first_table) rest
                   (insert_at (insert_position + i) new_elem' target_body)
  end.

(** [_replace_cover_page] on the two bodies; [None] when [index] or
    [remove] raises *)
Definition _replace_cover_page (template_body target_body : list elem)
  : option (list elem) :=
  let template_cover := _get_cover_page_elements template_body in
  let target_cover := _get_cover_page_elements target_body in
  match
    match target_cover with
    | o :: _ => index_of o (body_objects target_body)
    | [] => Some 0
    end
  with
  | None => None
  | Some insert_position =>
      match remove_all target_cover (body_objects target_body) with
      | None => None
      | Some remaining =>
          Some (insert_cover insert_position 0 true
                  (List.map snd template_cover) (List.map snd remaining))
      end
  end.

End Cover.

End TopPage.

(** ** Header Recolorer: [docx-table-title.py]

    python-docx hands out the direct children: [doc.tables] the [w:tbl] of
    the body, [table.rows] the [w:tr] of the table, [row.cells] the [w:tc] of
    the row, [cell.paragraphs] the [w:p] of the cell, [paragraph.runs] the
    [w:r] of the paragraph.  Its [get_or_add_tcPr], [get_or_add_rPr] and
    [get_or_add_pPr] put a missing child first. *)

Module TableTitle.

Definition shd_elem (color : string) : elem :=
  set_attr "w:fill" color
    (set_attr "w:color" "auto" (set_attr "w:val" "clear" (OxmlElement "w:shd"))).

Definition color_elem (color : string) : elem :=
  set_attr "w:val" color (OxmlElement "w:color").

Definition set_cell_shading (color : string) (tc : elem) : elem :=
  with_child_first "w:tcPr"
    (fun tcPr => append_child (shd_elem color) (remove_children "w:shd" tcPr)) tc.

Definition replace_color (color : string) (rPr : elem) : elem :=
  append_child (color_elem color) (remove_children "w:color" rPr).

Definition set_run_color (color : string) (r : elem) : elem :=
  with_child_first "w:rPr" (replace_color color) r.

Definition set_paragraph_run_color (color : string) (p : elem) : elem :=
  with_child_first "w:pPr"
    (with_child_appended "w:rPr" (replace_color color))
    (map_tagged "w:r" (set_run_color color) p).

Definition process_cell (header_bg_color text_color : string) (tc : elem) : elem :=
  map_tagged "w:p" (set_paragraph_run_color text_color)
    (set_cell_shading header_bg_color tc).

Definition process_row (header_bg_color text_color : string) (tr : elem) : elem :=
  map_tagged "w:tc" (process_cell header_bg_color text_color) tr.

(** [if len(table.rows) > 0: header_row = table.rows[0]] *)
Definition process_table (header_bg_color text_color : string) (tbl : elem) : elem :=
  if Nat.ltb 0 (List.length (findall "w:tr" tbl))
  then set_children
         (update_nth_tagged "w:tr" 0 (process_row header_bg_color text_color)
            (children tbl)) tbl
  else tbl.

(** [process_table_headers] on the children of the document body *)
Definition process_table_headers (body : list elem) (header_bg_color text_color : string)
  : list elem :=
  List.map (fun c => if has_tag "w:tbl" c
                     then process_table header_bg_color text_color c else c) body.

Definition header_bg_color : string := "1F4E79".
Definition text_color : string := "FFFFFF".


End TableTitle.

(** * Vocabulary of the properties *)

(** a mutation that keeps the tag *)
Definition keeps_tag (f : elem -> elem) : Prop := forall e, tag (f e) = tag e.

(** the state of a section that [_copy_footers] leaves: flag set, page
    numbers dash-wrapped from 0, no first-page footer content, and the one
    centred PAGE field paragraph as regular footer *)
Definition footer_rebuilt (s : TopPage.section) : Prop :=
  TopPage.different_first_page_header_footer s = true /\
  (exists pgNumType,
      find_child "w:pgNumType" (TopPage._sectPr s) = Some pgNumType /\
      get_attr "w:fmt" pgNumType = Some "numberInDash" /\
      get_attr "w:start" pgNumType = Some "0") /\
  children (TopPage.first_page_footer s) = [] /\
  children (TopPage.footer s) =
    [Elem "w:p" [] None
       [Elem "w:pPr" [] None [Elem "w:jc" [("w:val", "center")] None []];
        Elem "w:r" [] None [Elem "w:fldChar" [("w:fldCharType", "begin")] None []];
        Elem "w:r" [] None
          [Elem "w:instrText" [("xml:space", "preserve")] (Some " PAGE ") []];
        Elem "w:r" [] None [Elem "w:fldChar" [("w:fldCharType", "separate")] None []];
        Elem "w:r" [] None [Elem "w:t" [] (Some "1") []];
        Elem "w:r" [] None [Elem "w:fldChar" [("w:fldCharType", "end")] None []]]].







Section CoverVocabulary.

Variable tostring : elem -> string.



End CoverVocabulary.

(** The copies of the template's cover in order: each element with its
    variables substituted, the first table among them also given the two
    column widths. *)
Fixpoint cover_copies (variables : list (string * string)) (first_table : bool)
         (template_cover : list elem) : list elem :=
  match template_cover with
  | [] => []
  | e :: rest =>
      let copy := TopPage._replace_variables_in_element variables e in
      if has_tag "w:tbl" copy && first_table
      then TopPage._set_table_column_widths 45 135 copy
           :: cover_copies variables false rest
      else copy :: cover_copies variables first_table rest
  end.








(** ** Paths *)

(** induction on elements, the children covered by [Forall] *)
Section ElemInduction.

Variable P : elem -> Prop.
Hypothesis step : forall t a x cs, List.Forall P cs -> P (Elem t a x cs).

Fixpoint elem_induction (e : elem) : P e :=
  match e with
  | Elem t a x cs =>
      step t a x cs
        ((fix all (l : list elem) : List.Forall P l :=
            match l with
            | [] => List.Forall_nil P
            | c :: l' => List.Forall_cons c (elem_induction c) (all l')
            end) cs)
  end.

End ElemInduction.

(** two paths that part ways: neither object lies inside the other *)
Fixpoint diverge (p q : path) : bool :=
  match p, q with
  | i :: p', j :: q' => if Nat.eqb i j then diverge p' q' else true
  | _, _ => false
  end.

(** no object of the list lies inside another one, nor is met twice *)
Fixpoint all_diverge (ps : list path) : bool :=
  match ps with
  | [] => true
  | p :: l => List.forallb (diverge p) l && all_diverge l
  end.

(** no element with the tag [t] inside another one with that tag *)
Definition no_nested (t : string) (e : elem) : bool := all_diverge (iter t e).

Definition path_eqb (p q : path) : bool :=
  if List.list_eq_dec Nat.eq_dec p q then true else false.

(** the object at [p] is among the objects [ps], and no other one of them
    lies inside it or around it *)
Fixpoint stands_apart (p : path) (ps : list path) : bool :=
  match ps with
  | [] => false
  | q :: l =>
      if path_eqb q p then List.forallb (diverge p) l
      else diverge p q && stands_apart p l
  end.

(** [p] is a paragraph of the element that neither lies inside another
    paragraph nor has one inside it *)
Definition paragraph_apart (element : elem) (p : path) : bool :=
  stands_apart p (iter "w:p" element).

(** no object is met twice *)
Fixpoint distinct (ps : list path) : bool :=
  match ps with
  | [] => true
  | p :: l => negb (List.existsb (path_eqb p) l) && distinct l
  end.

(** the text of the object at [q], if there is such an object *)
Definition text_of (e : elem) (q : path) : option (option string) :=
  option_map text (get q e).

(** the element with texts and attributes erased *)
Fixpoint shape (e : elem) : elem :=
  match e with
  | Elem t _ _ cs => Elem t [] None (List.map shape cs)
  end.

(** mutations that touch neither the tag nor the children *)
Definition keeps_children (g : elem -> elem) : Prop :=
  forall x, tag (g x) = tag x /\ children (g x) = children x.

(** ** Dollar signs *)

Definition dollar : ascii := "$"%char.

(** the string has no [$] *)
Fixpoint no_dollar (s : string) : bool :=
  match s with
  | EmptyString => true
  | String c s' => negb (Ascii.eqb c dollar) && no_dollar s'
  end.

(** every [$] of the string starts the token of one of the names *)
Fixpoint tokenized (names : list string) (s : string) : bool :=
  match s with
  | EmptyString => true
  | String c s' =>
      (if Ascii.eqb c dollar
       then List.existsb (fun n => prefix (TopPage.token n) s) names
       else true)
      && tokenized names s'
  end.

(** names and values without [$] *)
Definition plain_variables (variables : list (string * string)) : bool :=
  List.forallb (fun kv => no_dollar (fst kv) && no_dollar (snd kv)) variables.

(** ** Tabs *)

(** no tab element in the element *)
Definition no_tab (x : elem) : Prop := iter "w:tab" x = [].

(** the run at [r] has a text fragment that contains the whole label *)
Definition run_labelled (para : elem) (r : path) : bool :=
  match get r para with
  | Some run => TopPage.run_has_label run
  | None => false
  end.

(** the object at [r] exists and holds no tab *)
Definition tab_free_at (e : elem) (r : path) : Prop :=
  exists x, get r e = Some x /\ no_tab x.

(** ** Vocabulary of the further properties *)

(** no paragraph of the element has a token of a configured variable in its
    joined text *)
Definition no_token_paragraphs (variables : list (string * string)) (element : elem)
  : bool :=
  List.forallb
    (fun p =>
       match get p element with
       | Some para => negb (TopPage.has_variable variables (TopPage.full_text para))
       | None => true
       end)
    (iter "w:p" element).

(** no paragraph of the element has the label in its joined text *)
Definition no_label_paragraphs (element : elem) : bool :=
  List.forallb
    (fun p =>
       match get p element with
       | Some para => negb (PyStr.contains TopPage.label (TopPage.full_text para))
       | None => true
       end)
    (iter "w:p" element).

(** tag, attributes and text of the object at [q], if there is such an
    object *)
Definition label_of (e : elem) (q : path)
  : option (string * list (string * string) * option string) :=
  option_map (fun x => (tag x, attrib x, text x)) (get q e).

(** the tag of the object at [q] *)
Definition tag_of (e : elem) (q : path) : option string :=
  option_map tag (get q e).

(** * Properties *)

(** ** Elements, attributes and children *)

Section ElemFacts.

Lemma attr_get_set_same (k v : string) (a : list (string * string)) :
  attr_get k (attr_set k v a) = Some v.
Proof.
  induction a as [|[k' v'] a IH]; simpl.
  - now rewrite String.eqb_refl.
  - destruct (String.eqb k' k) eqn:E; simpl.
    + now rewrite String.eqb_refl.
    + now rewrite E.
Qed.

Lemma attr_get_set_other (k k' v : string) (a : list (string * string)) :
  k' <> k -> attr_get k' (attr_set k v a) = attr_get k' a.
Proof.
  intros Hne. induction a as [|[k0 v0] a IH]; simpl.
  - destruct (String.eqb k k') eqn:E; [apply String.eqb_eq in E; congruence | reflexivity].
  - destruct (String.eqb k0 k) eqn:E; simpl.
    + apply String.eqb_eq in E. subst k0.
      destruct (String.eqb k k') eqn:E'; [apply String.eqb_eq in E'; congruence | reflexivity].
    + destruct (String.eqb k0 k'); [reflexivity | exact IH].
Qed.

Lemma attr_set_set_same (k v : string) (a : list (string * string)) :
  attr_set k v (attr_set k v a) = attr_set k v a.
Proof.
  induction a as [|[k' v'] a IH]; simpl.
  - now rewrite String.eqb_refl.
  - destruct (String.eqb k' k) eqn:E; simpl.
    + now rewrite String.eqb_refl.
    + now rewrite E, IH.
Qed.

Lemma get_attr_set_attr_same (k v : string) (e : elem) :
  get_attr k (set_attr k v e) = Some v.
Proof. destruct e; apply attr_get_set_same. Qed.

Lemma get_attr_set_attr_other (k k' v : string) (e : elem) :
  k' <> k -> get_attr k' (set_attr k v e) = get_attr k' e.
Proof. destruct e; apply attr_get_set_other. Qed.

Lemma tag_set_attr k v e : tag (set_attr k v e) = tag e.
Proof. now destruct e. Qed.

Lemma tag_set_text s e : tag (set_text s e) = tag e.
Proof. now destruct e. Qed.

Lemma tag_set_children cs e : tag (set_children cs e) = tag e.
Proof. now destruct e. Qed.

Lemma children_set_children cs e : children (set_children cs e) = cs.
Proof. now destruct e. Qed.

Lemma children_set_attr k v e : children (set_attr k v e) = children e.
Proof. now destruct e. Qed.

Lemma set_children_twice cs cs' e :
  set_children cs (set_children cs' e) = set_children cs e.
Proof. now destruct e. Qed.

Lemma set_children_same e : set_children (children e) e = e.
Proof. now destruct e. Qed.

Lemma has_tag_set_children t cs e : has_tag t (set_children cs e) = has_tag t e.
Proof. now destruct e. Qed.

Lemma keeps_tag_has_tag f t e : keeps_tag f -> has_tag t (f e) = has_tag t e.
Proof. intros H. unfold has_tag. now rewrite H. Qed.

Lemma find_update_first (t : string) (f : elem -> elem) (l : list elem) :
  keeps_tag f ->
  List.find (has_tag t) (update_first (has_tag t) f l)
  = option_map f (List.find (has_tag t) l).
Proof.
  intros Hf. induction l as [|x l IH]; simpl; [reflexivity|].
  destruct (has_tag t x) eqn:E; simpl.
  - now rewrite (keeps_tag_has_tag f t x Hf), E.
  - now rewrite E.
Qed.

Lemma update_first_twice (t : string) (f : elem -> elem) (l : list elem) :
  keeps_tag f -> (forall e, f (f e) = f e) ->
  update_first (has_tag t) f (update_first (has_tag t) f l)
  = update_first (has_tag t) f l.
Proof.
  intros Hf Hi. induction l as [|x l IH]; simpl; [reflexivity|].
  destruct (has_tag t x) eqn:E; simpl.
  - now rewrite (keeps_tag_has_tag f t x Hf), E, Hi.
  - now rewrite E, IH.
Qed.

Lemma find_app_none {A} (pr : A -> bool) (l l' : list A) :
  List.find pr l = None -> List.find pr (l ++ l') = List.find pr l'.
Proof.
  induction l as [|x l IH]; simpl; [reflexivity|].
  destruct (pr x); [discriminate | exact IH].
Qed.

Lemma update_first_app_none (pr : elem -> bool) f (l l' : list elem) :
  List.find pr l = None ->
  update_first pr f (l ++ l') = l ++ update_first pr f l'.
Proof.
  induction l as [|x l IH]; simpl; [reflexivity|].
  destruct (pr x); [discriminate | intros H; now rewrite IH].
Qed.

Lemma keeps_tag_with_child_appended t f : keeps_tag (with_child_appended t f).
Proof.
  intros e. unfold with_child_appended, append_child.
  destruct (find_child t e); apply tag_set_children.
Qed.

Lemma keeps_tag_with_child_first t f : keeps_tag (with_child_first t f).
Proof.
  intros e. unfold with_child_first.
  destruct (find_child t e); apply tag_set_children.
Qed.

Lemma find_child_with_child_appended t f e :
  keeps_tag f ->
  exists c, find_child t (with_child_appended t f e) = Some (f c).
Proof.
  intros Hf. unfold with_child_appended, find_child.
  destruct (List.find (has_tag t) (children e)) eqn:E.
  - exists e0. rewrite children_set_children, find_update_first, E; auto.
  - exists (OxmlElement t). unfold append_child.
    rewrite children_set_children, find_app_none by exact E. simpl.
    rewrite (keeps_tag_has_tag f t _ Hf). unfold has_tag. simpl.
    now rewrite String.eqb_refl.
Qed.

Lemma find_child_with_child_first t f e :
  keeps_tag f ->
  exists c, find_child t (with_child_first t f e) = Some (f c).
Proof.
  intros Hf. unfold with_child_first, find_child.
  destruct (List.find (has_tag t) (children e)) eqn:E.
  - exists e0. rewrite children_set_children, find_update_first, E; auto.
  - exists (OxmlElement t).
    rewrite children_set_children. simpl.
    rewrite (keeps_tag_has_tag f t _ Hf). unfold has_tag. simpl.
    now rewrite String.eqb_refl.
Qed.

Lemma with_child_appended_twice t f e :
  keeps_tag f -> (forall x, f (f x) = f x) ->
  with_child_appended t f (with_child_appended t f e) = with_child_appended t f e.
Proof.
  intros Hf Hi.
  destruct (find_child_with_child_appended t f e Hf) as [c Hc].
  unfold with_child_appended at 1. rewrite Hc.
  unfold with_child_appended, find_child, append_child in *.
  destruct (List.find (has_tag t) (children e)) eqn:E.
  - rewrite children_set_children, set_children_twice.
    now rewrite update_first_twice.
  - rewrite children_set_children, set_children_twice.
    rewrite update_first_app_none by exact E. simpl.
    rewrite (keeps_tag_has_tag f t _ Hf). unfold has_tag at 1. simpl.
    now rewrite String.eqb_refl, Hi.
Qed.

Lemma with_child_first_twice t f e :
  keeps_tag f -> (forall x, f (f x) = f x) ->
  with_child_first t f (with_child_first t f e) = with_child_first t f e.
Proof.
  intros Hf Hi.
  destruct (find_child_with_child_first t f e Hf) as [c Hc].
  unfold with_child_first at 1. rewrite Hc.
  unfold with_child_first, find_child in *.
  destruct (List.find (has_tag t) (children e)) eqn:E.
  - rewrite children_set_children, set_children_twice.
    now rewrite update_first_twice.
  - rewrite children_set_children, set_children_twice. simpl.
    rewrite (keeps_tag_has_tag f t _ Hf). unfold has_tag at 1. simpl.
    now rewrite String.eqb_refl, Hi.
Qed.

End ElemFacts.

(** ** Template Applier: footers *)

Lemma copy_footers_section_rebuilt (s : TopPage.section) :
  footer_rebuilt (TopPage.copy_footers_section s).
Proof.
  unfold footer_rebuilt, TopPage.copy_footers_section. simpl.
  split; [reflexivity|]. split; [|split].
  - unfold TopPage.set_page_number_sectPr.
    destruct (find_child_with_child_appended "w:pgNumType"
                (fun pg => set_attr "w:start" "0" (set_attr "w:fmt" "numberInDash" pg))
                (TopPage._sectPr s)) as [c Hc].
    { intros e. now rewrite !tag_set_attr. }
    eexists. split; [exact Hc|]. cbv beta. split.
    + rewrite (get_attr_set_attr_other "w:start" "w:fmt" "0") by discriminate.
      apply get_attr_set_attr_same.
    + apply get_attr_set_attr_same.
  - reflexivity.
  - reflexivity.
Qed.

(** C5: after [_copy_footers] every target section has the "different first
    page" flag on, a page-number type with format numberInDash and start 0,
    a first-page footer without children, and a regular footer that is
    exactly one centred paragraph holding the PAGE field as the runs
    begin, instruction text " PAGE ", separate, placeholder text, end; no
    section is added or dropped. *)
Theorem copy_footers_rebuilds_every_section (target_sections : list TopPage.section) :
  List.length (TopPage._copy_footers target_sections) = List.length target_sections /\
  List.Forall footer_rebuilt (TopPage._copy_footers target_sections).
Proof.
  unfold TopPage._copy_footers. split.
  - apply List.length_map.
  - apply List.Forall_forall. intros s Hs.
    apply List.in_map_iff in Hs. destruct Hs as [s0 [<- _]].
    apply copy_footers_section_rebuilt.
Qed.

(** ** Mutating tagged children *)

Lemma keeps_tag_map_tagged t f : keeps_tag (map_tagged t f).
Proof. intros e. apply tag_set_children. Qed.

Lemma keeps_tag_compose f g : keeps_tag f -> keeps_tag g -> keeps_tag (fun e => f (g e)).
Proof. intros Hf Hg e. now rewrite Hf, Hg. Qed.

Lemma has_tag_distinct t t' e : t <> t' -> has_tag t e = true -> has_tag t' e = false.
Proof.
  unfold has_tag. intros Hne Ht. apply String.eqb_eq in Ht.
  apply String.eqb_neq. congruence.
Qed.

Lemma map_tagged_twice t f e :
  keeps_tag f -> (forall x, f (f x) = f x) ->
  map_tagged t f (map_tagged t f e) = map_tagged t f e.
Proof.
  intros Hf Hi. unfold map_tagged.
  rewrite children_set_children, set_children_twice. f_equal.
  rewrite List.map_map. apply List.map_ext. intros c.
  destruct (has_tag t c) eqn:E.
  - now rewrite (keeps_tag_has_tag f t c Hf), E, Hi.
  - now rewrite E.
Qed.

Lemma filter_map_tagged_same t f (l : list elem) :
  keeps_tag f ->
  List.filter (has_tag t) (List.map (fun c => if has_tag t c then f c else c) l)
  = List.map f (List.filter (has_tag t) l).
Proof.
  intros Hf. induction l as [|x l IH]; simpl; [reflexivity|].
  destruct (has_tag t x) eqn:E; simpl.
  - now rewrite (keeps_tag_has_tag f t x Hf), E, IH.
  - now rewrite E.
Qed.

Lemma filter_map_tagged_other t t' f (l : list elem) :
  keeps_tag f ->
  List.filter (has_tag t') (List.map (fun c => if has_tag t c then f c else c) l)
  = List.filter (has_tag t') (List.map (fun c => if has_tag t c then f c else c)
                                (List.filter (has_tag t') l)).
Proof.
  intros Hf. induction l as [|x l IH]; simpl; [reflexivity|].
  assert (Hx : has_tag t' (if has_tag t x then f x else x) = has_tag t' x).
  { destruct (has_tag t x); [apply (keeps_tag_has_tag f t' x Hf) | reflexivity]. }
  rewrite Hx. destruct (has_tag t' x) eqn:E; simpl.
  - rewrite Hx. now f_equal.
  - exact IH.
Qed.

Lemma map_tagged_untouched t t' f (l : list elem) :
  t <> t' ->
  List.map (fun c => if has_tag t c then f c else c) (List.filter (has_tag t') l)
  = List.filter (has_tag t') l.
Proof.
  intros Hne. induction l as [|x l IH]; simpl; [reflexivity|].
  destruct (has_tag t' x) eqn:E; simpl; [|exact IH].
  assert (has_tag t x = false) as ->.
  { apply (has_tag_distinct t' t); congruence. }
  now rewrite IH.
Qed.

Lemma findall_map_tagged_same t f e :
  keeps_tag f -> findall t (map_tagged t f e) = List.map f (findall t e).
Proof.
  intros Hf. unfold findall, map_tagged. rewrite children_set_children.
  now apply filter_map_tagged_same.
Qed.

Lemma filter_idem {A} (pr : A -> bool) (l : list A) :
  List.filter pr (List.filter pr l) = List.filter pr l.
Proof.
  induction l as [|x l IH]; simpl; [reflexivity|].
  destruct (pr x) eqn:E; simpl; [now rewrite E, IH | exact IH].
Qed.

Lemma findall_map_tagged_other t t' f e :
  keeps_tag f -> t <> t' -> findall t' (map_tagged t f e) = findall t' e.
Proof.
  intros Hf Hne. unfold findall, map_tagged. rewrite children_set_children.
  rewrite filter_map_tagged_other by exact Hf.
  rewrite map_tagged_untouched by exact Hne. apply filter_idem.
Qed.

Lemma find_map_tagged_other t t' f (l : list elem) :
  keeps_tag f -> t <> t' ->
  List.find (has_tag t') (List.map (fun c => if has_tag t c then f c else c) l)
  = List.find (has_tag t') l.
Proof.
  intros Hf Hne. induction l as [|x l IH]; simpl; [reflexivity|].
  destruct (has_tag t' x) eqn:E.
  - assert (has_tag t x = false) as ->.
    { apply (has_tag_distinct t' t); congruence. }
    now rewrite E.
  - destruct (has_tag t x) eqn:E'.
    + now rewrite (keeps_tag_has_tag f t' x Hf), E.
    + now rewrite E.
Qed.

Lemma find_child_map_tagged_other t t' f e :
  keeps_tag f -> t <> t' -> find_child t' (map_tagged t f e) = find_child t' e.
Proof.
  intros Hf Hne. unfold find_child, map_tagged. rewrite children_set_children.
  now apply find_map_tagged_other.
Qed.

Lemma update_first_map_tagged t t' f g (l : list elem) :
  keeps_tag f -> keeps_tag g -> t <> t' ->
  update_first (has_tag t') g (List.map (fun c => if has_tag t c then f c else c) l)
  = List.map (fun c => if has_tag t c then f c else c) (update_first (has_tag t') g l).
Proof.
  intros Hf Hg Hne. induction l as [|x l IH]; simpl; [reflexivity|].
  destruct (has_tag t' x) eqn:E.
  - assert (Hx : has_tag t x = false).
    { apply (has_tag_distinct t' t); congruence. }
    rewrite Hx, E. simpl.
    now rewrite (keeps_tag_has_tag g t x Hg), Hx.
  - destruct (has_tag t x) eqn:E'; simpl.
    + now rewrite (keeps_tag_has_tag f t' x Hf), E, E', IH.
    + now rewrite E, E', IH.
Qed.

(** mutating the [t'] child first or the [t] children first is the same *)
Lemma with_child_first_map_tagged t t' f g e :
  keeps_tag f -> keeps_tag g -> t <> t' ->
  with_child_first t' g (map_tagged t f e) = map_tagged t f (with_child_first t' g e).
Proof.
  intros Hf Hg Hne. unfold with_child_first.
  rewrite find_child_map_tagged_other by assumption.
  destruct (find_child t' e) eqn:E; unfold map_tagged;
    rewrite !children_set_children, !set_children_twice; f_equal.
  - now apply update_first_map_tagged.
  - simpl. f_equal.
    assert (has_tag t (g (OxmlElement t')) = false) as ->; [|reflexivity].
    rewrite (keeps_tag_has_tag g t _ Hg). unfold has_tag. simpl.
    apply String.eqb_neq. congruence.
Qed.

Lemma update_nth_tagged_first t f (l : list elem) :
  update_nth_tagged t 0 f l = update_first (has_tag t) f l.
Proof.
  induction l as [|x l IH]; simpl; [reflexivity|].
  destruct (has_tag t x); [reflexivity | now rewrite IH].
Qed.

Lemma filter_update_first t f (l : list elem) :
  keeps_tag f ->
  List.filter (has_tag t) (update_first (has_tag t) f l)
  = match List.filter (has_tag t) l with
    | [] => []
    | x :: r => f x :: r
    end.
Proof.
  intros Hf. induction l as [|x l IH]; simpl; [reflexivity|].
  destruct (has_tag t x) eqn:E; simpl.
  - now rewrite (keeps_tag_has_tag f t x Hf), E.
  - now rewrite E, IH.
Qed.

(** replacing the [t] children by one fresh [t] child *)
Lemma replace_tagged_twice t x e :
  has_tag t x = true ->
  append_child x (remove_children t (append_child x (remove_children t e)))
  = append_child x (remove_children t e).
Proof.
  intros Hx. unfold append_child, remove_children.
  rewrite !children_set_children, !set_children_twice. f_equal.
  rewrite List.filter_app, filter_idem. simpl. rewrite Hx. simpl.
  now rewrite List.app_nil_r.
Qed.


Lemma filter_update_first_other t t' f (l : list elem) :
  keeps_tag f -> t <> t' ->
  List.filter (has_tag t') (update_first (has_tag t) f l) = List.filter (has_tag t') l.
Proof.
  intros Hf Hne. induction l as [|x l IH]; simpl; [reflexivity|].
  destruct (has_tag t x) eqn:E; simpl.
  - now rewrite (keeps_tag_has_tag f t' x Hf), (has_tag_distinct t t' x Hne E).
  - now rewrite IH.
Qed.

Lemma findall_with_child_first_other t t' f e :
  keeps_tag f -> t <> t' -> findall t' (with_child_first t f e) = findall t' e.
Proof.
  intros Hf Hne. unfold findall, with_child_first.
  destruct (find_child t e); rewrite children_set_children.
  - now apply filter_update_first_other.
  - simpl. rewrite (keeps_tag_has_tag f t' _ Hf).
    assert (has_tag t' (OxmlElement t) = false) as ->; [|reflexivity].
    unfold has_tag. simpl. now apply String.eqb_neq.
Qed.

(** ** Header Recolorer *)

Module TableTitleFacts.
Import TableTitle.

Lemma has_tag_color_elem c : has_tag "w:color" (color_elem c) = true.
Proof. reflexivity. Qed.

Lemma has_tag_shd_elem c : has_tag "w:shd" (shd_elem c) = true.
Proof. reflexivity. Qed.

Lemma keeps_tag_replace_color c : keeps_tag (replace_color c).
Proof.
  intros e. unfold replace_color, append_child, remove_children.
  now rewrite !tag_set_children.
Qed.

Lemma replace_color_twice c e : replace_color c (replace_color c e) = replace_color c e.
Proof. apply replace_tagged_twice, has_tag_color_elem. Qed.

Lemma keeps_tag_set_run_color c : keeps_tag (set_run_color c).
Proof. apply keeps_tag_with_child_first. Qed.

Lemma set_run_color_twice c r : set_run_color c (set_run_color c r) = set_run_color c r.
Proof.
  apply with_child_first_twice;
    [apply keeps_tag_replace_color | apply replace_color_twice].
Qed.

Lemma keeps_tag_set_paragraph_run_color c : keeps_tag (set_paragraph_run_color c).
Proof.
  intros p. unfold set_paragraph_run_color.
  now rewrite keeps_tag_with_child_first, keeps_tag_map_tagged.
Qed.

Lemma set_paragraph_run_color_twice c p :
  set_paragraph_run_color c (set_paragraph_run_color c p) = set_paragraph_run_color c p.
Proof.
  unfold set_paragraph_run_color.
  rewrite <- (with_child_first_map_tagged "w:r" "w:pPr");
    [| apply keeps_tag_set_run_color | apply keeps_tag_with_child_appended | discriminate].
  rewrite map_tagged_twice;
    [| apply keeps_tag_set_run_color | apply set_run_color_twice].
  apply with_child_first_twice; [apply keeps_tag_with_child_appended|].
  intros x. apply with_child_appended_twice;
    [apply keeps_tag_replace_color | apply replace_color_twice].
Qed.

Lemma keeps_tag_set_cell_shading c : keeps_tag (set_cell_shading c).
Proof. apply keeps_tag_with_child_first. Qed.

Lemma keeps_tag_shade c :
  keeps_tag (fun tcPr => append_child (shd_elem c) (remove_children "w:shd" tcPr)).
Proof.
  intros e. unfold append_child, remove_children. now rewrite !tag_set_children.
Qed.

Lemma set_cell_shading_twice c tc :
  set_cell_shading c (set_cell_shading c tc) = set_cell_shading c tc.
Proof.
  apply with_child_first_twice; [apply keeps_tag_shade|].
  intros x. apply replace_tagged_twice, has_tag_shd_elem.
Qed.

Lemma keeps_tag_process_cell bg fg : keeps_tag (process_cell bg fg).
Proof.
  intros tc. unfold process_cell.
  now rewrite keeps_tag_map_tagged, keeps_tag_set_cell_shading.
Qed.

Lemma process_cell_twice bg fg tc :
  process_cell bg fg (process_cell bg fg tc) = process_cell bg fg tc.
Proof.
  unfold process_cell, set_cell_shading.
  rewrite (with_child_first_map_tagged "w:p" "w:tcPr");
    [| apply keeps_tag_set_paragraph_run_color | apply keeps_tag_shade | discriminate].
  rewrite map_tagged_twice;
    [| apply keeps_tag_set_paragraph_run_color | apply set_paragraph_run_color_twice].
  f_equal. apply (set_cell_shading_twice bg tc).
Qed.

Lemma keeps_tag_process_row bg fg : keeps_tag (process_row bg fg).
Proof. apply keeps_tag_map_tagged. Qed.

Lemma process_row_twice bg fg tr :
  process_row bg fg (process_row bg fg tr) = process_row bg fg tr.
Proof.
  apply map_tagged_twice; [apply keeps_tag_process_cell | apply process_cell_twice].
Qed.

Lemma keeps_tag_process_table bg fg : keeps_tag (process_table bg fg).
Proof.
  intros tbl. unfold process_table.
  destruct (Nat.ltb 0 (List.length (findall "w:tr" tbl)));
    [apply tag_set_children | reflexivity].
Qed.

Lemma findall_process_table bg fg tbl :
  findall "w:tr" (process_table bg fg tbl)
  = match findall "w:tr" tbl with
    | [] => []
    | row :: rows => process_row bg fg row :: rows
    end.
Proof.
  unfold process_table.
  destruct (findall "w:tr" tbl) as [|row rows] eqn:E; simpl; [exact E|].
  unfold findall in *. rewrite children_set_children, update_nth_tagged_first.
  rewrite filter_update_first by apply keeps_tag_process_row. now rewrite E.
Qed.

Lemma process_table_twice bg fg tbl :
  process_table bg fg (process_table bg fg tbl) = process_table bg fg tbl.
Proof.
  unfold process_table at 1. rewrite findall_process_table.
  unfold process_table.
  destruct (findall "w:tr" tbl) as [|row rows] eqn:E; simpl; [reflexivity|].
  rewrite set_children_twice, !update_nth_tagged_first.
  rewrite update_first_twice;
    [reflexivity | apply keeps_tag_process_row | apply process_row_twice].
Qed.





End TableTitleFacts.

(** C9: recolouring is idempotent: a second application of
    [process_table_headers] with the same colours to its own output leaves
    the whole body, so every cell shading and every run and paragraph colour,
    as the first application produced it. *)
Theorem process_table_headers_idempotent (body : list elem) (bg fg : string) :
  TableTitle.process_table_headers
    (TableTitle.process_table_headers body bg fg) bg fg
  = TableTitle.process_table_headers body bg fg.
Proof.
  unfold TableTitle.process_table_headers.
  rewrite List.map_map. apply List.map_ext. intros c.
  destruct (has_tag "w:tbl" c) eqn:E.
  - rewrite (keeps_tag_has_tag _ "w:tbl" c (TableTitleFacts.keeps_tag_process_table bg fg)), E.
    apply TableTitleFacts.process_table_twice.
  - now rewrite E.
Qed.




(** ** Template Applier: cover page *)

Section CoverFacts.

Variable tostring : elem -> string.
Variable variables : list (string * string).

Lemma map_snd_combine_seq {A} (l : list A) (s : nat) :
  List.map snd (List.combine (List.seq s (List.length l)) l) = l.
Proof.
  revert s. induction l as [|x l IH]; intros s; simpl; [reflexivity|].
  now rewrite IH.
Qed.

Lemma map_snd_body_objects (body : list elem) :
  List.map snd (TopPage.body_objects body) = body.
Proof. apply map_snd_combine_seq. Qed.

(** the scan returns a leading segment of what it scans *)
Lemma cover_scan_prefix (l : list TopPage.obj) :
  TopPage.cover_scan tostring l
  = List.firstn (List.length (TopPage.cover_scan tostring l)) l.
Proof.
  induction l as [|o l IH]; simpl; [reflexivity|].
  destruct (has_tag "w:p" (snd o)).
  - destruct (TopPage.has_page_break tostring (snd o)); simpl; [reflexivity|].
    now rewrite <- IH.
  - destruct (has_tag "w:tbl" (snd o)); simpl; [now rewrite <- IH|].
    destruct (has_tag "w:sectPr" (snd o)); simpl; [reflexivity | now rewrite <- IH].
Qed.


Lemma cover_scan_no_sectPr (l : list TopPage.obj) :
  List.Forall (fun o => has_tag "w:sectPr" (snd o) = false)
              (TopPage.cover_scan tostring l).
Proof.
  induction l as [|o l IH]; simpl; [constructor|].
  destruct (has_tag "w:p" (snd o)) eqn:Ep.
  - assert (Es : has_tag "w:sectPr" (snd o) = false)
      by (apply (has_tag_distinct "w:p"); [discriminate | exact Ep]).
    destruct (TopPage.has_page_break tostring (snd o)); repeat constructor; assumption.
  - destruct (has_tag "w:tbl" (snd o)) eqn:Et.
    + constructor; [|exact IH].
      apply (has_tag_distinct "w:tbl"); [discriminate | exact Et].
    + destruct (has_tag "w:sectPr" (snd o)) eqn:Es; constructor; assumption.
Qed.

(** removing a leading segment object by object leaves the rest *)
Lemma remove_all_prefix (k : nat) (l : list TopPage.obj) :
  TopPage.remove_all (List.firstn k l) l = Some (List.skipn k l).
Proof.
  revert l. induction k as [|k IH]; intros l; [reflexivity|].
  destruct l as [|o l]; [reflexivity|]. simpl.
  rewrite Nat.eqb_refl. apply IH.
Qed.

Lemma index_of_head (o : TopPage.obj) (l : list TopPage.obj) :
  TopPage.index_of o (o :: l) = Some 0.
Proof. simpl. now rewrite Nat.eqb_refl. Qed.

Lemma firstn_insert_at {A} (n : nat) (x : A) (l : list A) :
  n <= List.length l ->
  List.firstn (S n) (TopPage.insert_at n x l) = List.firstn n l ++ [x].
Proof.
  unfold TopPage.insert_at. revert l.
  induction n as [|n IH]; intros l Hle; destruct l as [|y l]; simpl in *;
    try reflexivity; try lia.
  f_equal. apply IH. lia.
Qed.

Lemma skipn_insert_at {A} (n : nat) (x : A) (l : list A) :
  n <= List.length l ->
  List.skipn (S n) (TopPage.insert_at n x l) = List.skipn n l.
Proof.
  unfold TopPage.insert_at. revert l.
  induction n as [|n IH]; intros l Hle; destruct l as [|y l]; simpl in *;
    try reflexivity; try lia.
  apply IH. lia.
Qed.

Lemma length_insert_at {A} (n : nat) (x : A) (l : list A) :
  List.length (TopPage.insert_at n x l) = S (List.length l).
Proof.
  unfold TopPage.insert_at. rewrite List.length_app. simpl.
  rewrite <- (List.firstn_skipn n l) at 3. rewrite List.length_app. lia.
Qed.

Lemma insert_cover_splice (pos : nat) (cover : list elem) :
  forall (i : nat) (first_table : bool) (body : list elem),
    pos + i <= List.length body ->
    TopPage.insert_cover variables pos i first_table cover body
    = List.firstn (pos + i) body
      ++ cover_copies variables first_table cover
      ++ List.skipn (pos + i) body.
Proof.
  induction cover as [|e rest IH]; intros i ft body Hle; simpl.
  - now rewrite List.firstn_skipn.
  - set (copy := TopPage._replace_variables_in_element variables e).
    assert (Hins : forall x ft',
      TopPage.insert_cover variables pos (S i) ft' rest
        (TopPage.insert_at (pos + i) x body)
      = List.firstn (pos + i) body
        ++ (x :: cover_copies variables ft' rest)
        ++ List.skipn (pos + i) body).
    { intros x ft'. rewrite IH by (rewrite length_insert_at; lia).
      rewrite <- plus_n_Sm.
      rewrite firstn_insert_at, skipn_insert_at by exact Hle.
      now rewrite <- List.app_assoc. }
    destruct (has_tag "w:tbl" copy && ft); apply Hins.
Qed.

Lemma replace_cover_page_splice (template_body target_body : list elem) :
  TopPage._replace_cover_page tostring variables template_body target_body
  = Some (cover_copies variables true
            (List.map snd (TopPage._get_cover_page_elements tostring template_body))
          ++ List.skipn
               (List.length (TopPage._get_cover_page_elements tostring target_body))
               target_body).
Proof.
  unfold TopPage._replace_cover_page, TopPage._get_cover_page_elements.
  set (objs := TopPage.body_objects target_body).
  assert (Hidx :
    match TopPage.cover_scan tostring objs with
    | o :: _ => TopPage.index_of o objs
    | [] => Some 0
    end = Some 0).
  { pose proof (cover_scan_prefix objs) as Hp.
    destruct (TopPage.cover_scan tostring objs) as [|o c]; [reflexivity|].
    destruct objs as [|o' objs']; [discriminate|].
    simpl in Hp. injection Hp as -> _. apply index_of_head. }
  rewrite Hidx.
  rewrite (cover_scan_prefix objs) at 1. rewrite remove_all_prefix.
  rewrite insert_cover_splice by lia. simpl.
  rewrite <- List.skipn_map. unfold objs. now rewrite map_snd_body_objects.
Qed.

End CoverFacts.


Lemma length_cover_copies (variables : list (string * string)) (cover : list elem) :
  forall first_table,
    List.length (cover_copies variables first_table cover) = List.length cover.
Proof.
  induction cover as [|e rest IH]; intros ft; simpl; [reflexivity|].
  destruct (has_tag "w:tbl" (TopPage._replace_variables_in_element variables e) && ft);
    simpl; now rewrite IH.
Qed.

(** C10: [_replace_cover_page] removes from the target body exactly the
    elements the scan found, a leading segment without any body-level
    section-properties element; what follows the cover, the trailing
    section properties included, is in the output unchanged and in its
    order, right after the inserted copies: moved by the number of inserted
    elements less the number of removed ones. *)
Theorem replace_cover_page_keeps_rest
  (tostring : elem -> string) (variables : list (string * string))
  (template_body target_body : list elem) :
  let removed := List.length (TopPage._get_cover_page_elements tostring target_body) in
  let inserted := List.length (TopPage._get_cover_page_elements tostring template_body) in
  exists out,
    TopPage._replace_cover_page tostring variables template_body target_body = Some out /\
    List.map snd (TopPage._get_cover_page_elements tostring target_body)
      = List.firstn removed target_body /\
    List.Forall (fun e => has_tag "w:sectPr" e = false) (List.firstn removed target_body) /\
    List.length out + removed = inserted + List.length target_body /\
    List.skipn inserted out = List.skipn removed target_body.
Proof.
  intros removed inserted.
  assert (Hpre : List.map snd (TopPage._get_cover_page_elements tostring target_body)
                 = List.firstn removed target_body).
  { unfold removed, TopPage._get_cover_page_elements.
    rewrite (cover_scan_prefix tostring (TopPage.body_objects target_body)) at 1.
    now rewrite <- List.firstn_map, map_snd_body_objects. }
  assert (Hlen : removed <= List.length target_body).
  { pose proof (f_equal (@List.length elem) Hpre) as H.
    rewrite List.length_map, List.length_firstn in H.
    change (removed = Nat.min removed (List.length target_body)) in H. lia. }
  eexists. split; [apply replace_cover_page_splice|]. split; [exact Hpre|].
  split; [|split].
  - rewrite <- Hpre. apply List.Forall_map.
    apply cover_scan_no_sectPr.
  - subst removed inserted.
    rewrite List.length_app, length_cover_copies, List.length_map, List.length_skipn.
    unfold TopPage.obj in *. lia.
  - subst removed inserted.
    rewrite List.skipn_app, length_cover_copies, List.length_map.
    rewrite List.skipn_all2
      by (rewrite length_cover_copies, List.length_map; apply Nat.le_refl).
    now rewrite Nat.sub_diag.
Qed.

(** ** Template Applier: widths of the cover table *)






Lemma findall_with_existing_child_other t t' f e :
  keeps_tag f -> t <> t' ->
  findall t' (with_existing_child t f e) = findall t' e.
Proof.
  intros Hf Hne. unfold with_existing_child.
  destruct (find_child t e); [|reflexivity].
  unfold findall. rewrite children_set_children.
  now apply filter_update_first_other.
Qed.



Lemma keeps_tag_set_width w : keeps_tag (TopPage.set_width w).
Proof. intros e. unfold TopPage.set_width. now rewrite !tag_set_attr. Qed.

Lemma filter_update_nth_tagged t f (l : list elem) :
  keeps_tag f ->
  forall n,
    List.filter (has_tag t) (update_nth_tagged t n f l)
    = list_update n f (List.filter (has_tag t) l).
Proof.
  intros Hf. induction l as [|x l IH]; intros n; simpl; [now destruct n|].
  destruct (has_tag t x) eqn:E.
  - destruct n as [|n]; simpl.
    + now rewrite (keeps_tag_has_tag f t x Hf), E.
    + now rewrite E, IH.
  - simpl. now rewrite E, IH.
Qed.

Lemma findall_update_first_two t f1 f2 e :
  keeps_tag f1 -> keeps_tag f2 ->
  findall t (update_first_two t f1 f2 e)
  = match findall t e with
    | [] => []
    | [c1] => [f1 c1]
    | c1 :: c2 :: r => f1 c1 :: f2 c2 :: r
    end.
Proof.
  intros H1 H2. unfold update_first_two, findall.
  destruct (List.filter (has_tag t) (children e)) as [|c1 [|c2 r]] eqn:E; simpl.
  - exact E.
  - rewrite ?children_set_children, filter_update_nth_tagged by exact H1.
    now rewrite E.
  - rewrite ?children_set_children, !filter_update_nth_tagged by assumption.
    now rewrite E.
Qed.





Lemma keeps_tag_set_row_widths a b : keeps_tag (TopPage.set_row_widths a b).
Proof.
  intros e. unfold TopPage.set_row_widths, update_first_two.
  repeat match goal with |- context [if ?c then _ else _] => destruct c end;
    now rewrite ?tag_set_children.
Qed.

Lemma keeps_tag_set_grid_widths a b : keeps_tag (TopPage.set_grid_widths a b).
Proof.
  intros e. unfold TopPage.set_grid_widths, update_first_two.
  repeat match goal with |- context [if ?c then _ else _] => destruct c end;
    now rewrite ?tag_set_children.
Qed.

Lemma keeps_tag_set_tblPr w : keeps_tag (TopPage.set_tblPr w).
Proof.
  intros e. unfold TopPage.set_tblPr. now rewrite !keeps_tag_with_child_appended.
Qed.


Lemma tag_update (p : path) (f : elem -> elem) :
  keeps_tag f -> forall e, tag (update p f e) = tag e.
Proof.
  intros Hf. destruct p as [|i p]; intros e; simpl; [apply Hf | now destruct e].
Qed.

Lemma tag_fold_update {A} (g : A -> path) (h : A -> elem -> elem) (l : list A) :
  (forall a, keeps_tag (h a)) ->
  forall e, tag (List.fold_left (fun e a => update (g a) (h a) e) l e) = tag e.
Proof.
  intros Hh. induction l as [|a l IH]; intros e; simpl; [reflexivity|].
  rewrite IH. now apply tag_update.
Qed.

Lemma keeps_tag_set_text s : keeps_tag (set_text s).
Proof. intros e. apply tag_set_text. Qed.

Lemma keeps_tag_write_first s : keeps_tag (TopPage.write_first s).
Proof. intros e. unfold TopPage.write_first. now rewrite tag_set_attr, tag_set_text. Qed.

Lemma keeps_tag_replace_variables_in_para variables :
  keeps_tag (TopPage.replace_variables_in_para variables).
Proof.
  intros para. unfold TopPage.replace_variables_in_para.
  destruct (iter "w:r" para); [reflexivity|].
  destruct (negb _); [reflexivity|].
  destruct (TopPage.text_elements para) as [|t0 rest]; [reflexivity|].
  rewrite (tag_fold_update (fun t => t) (fun _ => set_text ""))
    by (intros _; apply keeps_tag_set_text).
  apply tag_update, keeps_tag_write_first.
Qed.

Lemma tag_replace_variables_in_element variables e :
  tag (TopPage._replace_variables_in_element variables e) = tag e.
Proof.
  unfold TopPage._replace_variables_in_element.
  apply (tag_fold_update (fun p => p)
           (fun _ => TopPage.replace_variables_in_para variables)).
  intros _. apply keeps_tag_replace_variables_in_para.
Qed.




(** ** Template Applier: headers *)

Lemma py_getitem_clamped {A} (l : list A) (d : A) (i : nat) :
  l <> [] ->
  TopPage.py_getitem l (Z.min (Z.of_nat i) (Z.of_nat (List.length l) - 1))
  = Some (List.nth (Nat.min i (List.length l - 1)) l d).
Proof.
  intros Hne. destruct l as [|x l]; [congruence|].
  unfold TopPage.py_getitem.
  set (n := List.length (x :: l)).
  assert (Hn : 1 <= n) by (unfold n; simpl; lia).
  assert (Hm : Z.min (Z.of_nat i) (Z.of_nat n - 1) = Z.of_nat (Nat.min i (n - 1))) by lia.
  rewrite Hm.
  destruct (Z.ltb_spec (Z.of_nat (Nat.min i (n - 1))) (- Z.of_nat n)); [lia|].
  destruct (Z.ltb_spec (Z.of_nat (Nat.min i (n - 1))) 0); [lia|].
  rewrite Nat2Z.id. apply List.nth_error_nth'. fold n. lia.
Qed.

Lemma copy_headers_from_paired variables (template_sections : list TopPage.section)
      (d : TopPage.section) :
  template_sections <> [] ->
  forall (target_sections : list TopPage.section) (i : nat),
    TopPage.copy_headers_from variables template_sections i target_sections
    = Some (List.map
              (fun it =>
                 TopPage.copy_headers_section variables
                   (List.nth (Nat.min (fst it) (List.length template_sections - 1))
                             template_sections d)
                   (snd it))
              (List.combine (List.seq i (List.length target_sections)) target_sections)).
Proof.
  intros Hne. induction target_sections as [|s rest IH]; intros i; simpl; [reflexivity|].
  rewrite (py_getitem_clamped template_sections d i Hne), IH. reflexivity.
Qed.

(** C3: with a template that has sections, [_copy_headers] completes, and
    the target section at index i comes out paired with the template
    section at index min(i, last): the flag "different first page" is on,
    the first-page header and the regular header keep their own element but
    have as children the copies of the paired template header's children,
    variables substituted (and the tab fix applied); the last template
    section serves every target section beyond the template's count.  The
    section properties and the footers are not touched. *)
Theorem copy_headers_pairs_sections
  (variables : list (string * string))
  (template_first : TopPage.section) (template_more target_sections : list TopPage.section) :
  let template_sections := template_first :: template_more in
  let paired i := List.nth (Nat.min i (List.length template_sections - 1))
                           template_sections template_first in
  TopPage._copy_headers variables template_sections target_sections
  = Some (List.map
            (fun it =>
               let template_section := paired (fst it) in
               let target_section := snd it in
               TopPage.Section_ true
                 (TopPage._sectPr target_section)
                 (TopPage._remove_tab_before_販売名
                    (TopPage._replace_variables_in_element variables
                       (set_children (children (TopPage.first_page_header template_section))
                                     (TopPage.first_page_header target_section))))
                 (TopPage._remove_tab_before_販売名
                    (TopPage._replace_variables_in_element variables
                       (set_children (children (TopPage.header template_section))
                                     (TopPage.header target_section))))
                 (TopPage.first_page_footer target_section)
                 (TopPage.footer target_section))
            (enumerate target_sections)).
Proof.
  intros template_sections paired. unfold TopPage._copy_headers.
  rewrite (copy_headers_from_paired variables template_sections template_first)
    by discriminate.
  reflexivity.
Qed.

(** without template sections the first target section raises IndexError *)
Lemma copy_headers_empty_template variables (s : TopPage.section) (rest : list TopPage.section) :
  TopPage._copy_headers variables [] (s :: rest) = None.
Proof. reflexivity. Qed.

(** ** Objects and paths *)

Lemma iter_unfold (t : string) (e : elem) :
  iter t e = (if String.eqb (tag e) t then [[]] else []) ++ iter_children t 0 (children e).
Proof.
  destruct e as [tg a x cs]. simpl. f_equal.
  generalize 0. induction cs as [|c cs IH]; intros i; simpl; [reflexivity|].
  now rewrite IH.
Qed.

Lemma get_app (p q : path) : forall e,
  get (p ++ q) e = match get p e with Some x => get q x | None => None end.
Proof.
  induction p as [|i p IH]; intros e; simpl; [reflexivity|].
  destruct (nth_error (children e) i); [apply IH | reflexivity].
Qed.

Lemma nth_error_list_update_same {A} (g : A -> A) (l : list A) : forall i,
  nth_error (list_update i g l) i = option_map g (nth_error l i).
Proof.
  induction l as [|x l IH]; intros [|i]; simpl; try reflexivity. apply IH.
Qed.

Lemma nth_error_list_update_other {A} (g : A -> A) (l : list A) : forall i j,
  i <> j -> nth_error (list_update i g l) j = nth_error l j.
Proof.
  induction l as [|x l IH]; intros [|i] [|j] Hne; simpl; try reflexivity; try congruence.
  apply IH. congruence.
Qed.

Lemma get_update_same (f : elem -> elem) (p : path) : forall e,
  get p (update p f e) = option_map f (get p e).
Proof.
  induction p as [|i p IH]; intros e; simpl; [reflexivity|].
  rewrite ?children_set_children, nth_error_list_update_same.
  destruct (nth_error (children e) i); simpl; [apply IH | reflexivity].
Qed.

Lemma diverge_sym (p : path) : forall q, diverge p q = diverge q p.
Proof.
  induction p as [|i p IH]; intros [|j q]; simpl; try reflexivity.
  rewrite (Nat.eqb_sym j i). destruct (Nat.eqb i j); [apply IH | reflexivity].
Qed.

Lemma diverge_irrefl (p : path) : diverge p p = false.
Proof. induction p as [|i p IH]; simpl; [reflexivity|]. now rewrite Nat.eqb_refl. Qed.

Lemma get_update_diverge (f : elem -> elem) (p : path) : forall q e,
  diverge p q = true -> get q (update p f e) = get q e.
Proof.
  induction p as [|i p IH]; intros [|j q] e H; simpl in *; try discriminate.
  rewrite ?children_set_children.
  destruct (Nat.eqb_spec i j) as [->|Hne].
  - rewrite nth_error_list_update_same.
    destruct (nth_error (children e) j); simpl; [now apply IH | reflexivity].
  - now rewrite nth_error_list_update_other.
Qed.

(** an update strictly below [q] keeps tag, attributes and text at [q] *)
Lemma get_update_above (f : elem -> elem) (q r : path) : forall e,
  r <> [] ->
  get q (update (q ++ r) f e)
  = option_map (fun x => set_children (children (update r f x)) x) (get q e).
Proof.
  induction q as [|i q IH]; intros e Hr; simpl.
  - destruct r as [|j r]; [congruence|]. simpl.
    now rewrite ?children_set_children.
  - rewrite ?children_set_children, nth_error_list_update_same.
    destruct (nth_error (children e) i); simpl; [now apply IH | reflexivity].
Qed.

Lemma get_below_keeps_children (g : elem -> elem) (r : path) (x : elem) :
  children (g x) = children x -> r <> [] -> get r (g x) = get r x.
Proof. intros Hc Hr. destruct r as [|i r]; [congruence|]. simpl. now rewrite Hc. Qed.

(** how two paths lie to each other *)
Lemma path_cases (p : path) : forall q,
  p = q \/ diverge p q = true \/
  (exists r, r <> [] /\ q = p ++ r) \/ (exists r, r <> [] /\ p = q ++ r).
Proof.
  induction p as [|i p IH]; intros [|j q].
  - now left.
  - right. right. left. exists (j :: q). split; [discriminate | reflexivity].
  - right. right. right. exists (i :: p). split; [discriminate | reflexivity].
  - simpl. destruct (Nat.eqb_spec i j) as [->|Hne]; [|right; now left].
    destruct (IH q) as [->|[H|[[r [Hr ->]]|[r [Hr ->]]]]].
    + now left.
    + right. now left.
    + right. right. left. now exists r.
    + right. right. right. now exists r.
Qed.

Lemma text_of_update_same (g : elem -> elem) (p : path) (e : elem) :
  text_of (update p g e) p = option_map (fun x => text (g x)) (get p e).
Proof.
  unfold text_of. rewrite get_update_same. now destruct (get p e).
Qed.

Lemma text_of_update_other (g : elem -> elem) (p q : path) (e : elem) :
  keeps_children g -> p <> q -> text_of (update p g e) q = text_of e q.
Proof.
  intros Hg Hne. unfold text_of.
  destruct (path_cases p q) as [->|[H|[[r [Hr ->]]|[r [Hr ->]]]]].
  - congruence.
  - now rewrite get_update_diverge.
  - rewrite !get_app, get_update_same.
    destruct (get p e) as [x|]; simpl; [|reflexivity].
    rewrite (get_below_keeps_children g r x); [reflexivity | apply Hg | exact Hr].
  - rewrite get_update_above by exact Hr.
    destruct (get q e) as [x|]; simpl; [|reflexivity]. now destruct x.
Qed.

Lemma keeps_children_set_text s : keeps_children (set_text s).
Proof. intros x. now destruct x. Qed.

Lemma keeps_children_write_first s : keeps_children (TopPage.write_first s).
Proof. intros x. now destruct x. Qed.

Lemma fold_update_get_other (F : elem -> elem) (ps : list path) (q : path) :
  List.forallb (fun p => diverge p q) ps = true ->
  forall e, get q (List.fold_left (fun e p => update p F e) ps e) = get q e.
Proof.
  induction ps as [|a l IH]; intros H e; simpl in *; [reflexivity|].
  apply andb_prop in H. destruct H as [Ha Hl].
  rewrite IH by exact Hl. now apply get_update_diverge.
Qed.

(** mutating objects none of which lies inside another: each gets its own
    mutation, applied to what it was at the start *)
Lemma fold_update_get_in (F : elem -> elem) (ps : list path) :
  all_diverge ps = true ->
  forall e p, List.In p ps ->
    get p (List.fold_left (fun e p => update p F e) ps e) = option_map F (get p e).
Proof.
  induction ps as [|a l IH]; intros H e p Hin; simpl in *; [contradiction|].
  apply andb_prop in H. destruct H as [Ha Hl].
  destruct Hin as [->|Hin].
  - rewrite fold_update_get_other.
    + apply get_update_same.
    + rewrite <- Ha. clear. induction l as [|q l IH]; simpl; [reflexivity|].
      now rewrite IH, diverge_sym.
  - rewrite IH by assumption. f_equal.
    apply get_update_diverge.
    rewrite List.forallb_forall in Ha. now apply Ha.
Qed.

(** the same for one object that stands apart from all the others, which
    may lie inside one another *)
Lemma fold_update_get_apart (F : elem -> elem) (p : path) (ps : list path) :
  stands_apart p ps = true ->
  forall e,
    get p (List.fold_left (fun e p => update p F e) ps e) = option_map F (get p e).
Proof.
  induction ps as [|q l IH]; intros H e; simpl in *; [discriminate|].
  unfold path_eqb in H. destruct (List.list_eq_dec Nat.eq_dec q p) as [->|Hne].
  - rewrite fold_update_get_other.
    + apply get_update_same.
    + rewrite <- H. clear. induction l as [|q l IH]; simpl; [reflexivity|].
      now rewrite IH, diverge_sym.
  - apply andb_prop in H. destruct H as [Hq Hl].
    rewrite IH by exact Hl. f_equal.
    apply get_update_diverge. now rewrite diverge_sym.
Qed.

Lemma distinct_NoDup (ps : list path) : distinct ps = true -> List.NoDup ps.
Proof.
  induction ps as [|p l IH]; simpl; intros H; [constructor|].
  apply andb_prop in H. destruct H as [Hp Hl].
  constructor; [|now apply IH].
  intros Hin. apply negb_true_iff in Hp.
  assert (List.existsb (path_eqb p) l = true); [|congruence].
  apply List.existsb_exists. exists p. split; [exact Hin|].
  unfold path_eqb. now destruct (List.list_eq_dec Nat.eq_dec p p).
Qed.

(** *** Shapes *)

Lemma tag_shape e : tag (shape e) = tag e.
Proof. now destruct e. Qed.

Lemma children_shape e : children (shape e) = List.map shape (children e).
Proof. now destruct e. Qed.

Lemma iter_children_shape t (cs : list elem) :
  List.Forall (fun c => iter t (shape c) = iter t c) cs ->
  forall i, iter_children t i (List.map shape cs) = iter_children t i cs.
Proof.
  induction 1 as [|c cs Hc _ IH]; intros i; simpl; [reflexivity|].
  now rewrite Hc, IH.
Qed.

Lemma iter_shape t e : iter t (shape e) = iter t e.
Proof.
  induction e as [tg a x cs IH] using elem_induction.
  rewrite (iter_unfold t (shape _)), (iter_unfold t (Elem tg a x cs)).
  rewrite tag_shape, children_shape. f_equal. now apply iter_children_shape.
Qed.

Lemma get_shape (q : path) : forall e, get q (shape e) = option_map shape (get q e).
Proof.
  induction q as [|i q IH]; intros e; simpl; [reflexivity|].
  rewrite children_shape, List.nth_error_map.
  destruct (nth_error (children e) i); simpl; [apply IH | reflexivity].
Qed.

Lemma map_shape_list_update (h : elem -> elem) (l : list elem) :
  (forall x, shape (h x) = shape x) ->
  forall i, List.map shape (list_update i h l) = List.map shape l.
Proof.
  intros Hh. induction l as [|x l IH]; intros [|i]; simpl; try reflexivity.
  - now rewrite Hh.
  - now rewrite IH.
Qed.

Lemma shape_update (g : elem -> elem) (p : path) :
  (forall x, shape (g x) = shape x) ->
  forall e, shape (update p g e) = shape e.
Proof.
  intros Hg. induction p as [|i p IH]; intros e; simpl; [apply Hg|].
  destruct e as [tg a x cs]. simpl. f_equal.
  now apply map_shape_list_update.
Qed.

Lemma shape_keeps_children (g : elem -> elem) :
  keeps_children g -> forall x, shape (g x) = shape x.
Proof.
  intros Hg x. destruct (Hg x) as [Ht Hc].
  destruct (g x) as [tg a y cs], x as [tg' a' y' cs']. simpl in *. now subst.
Qed.

Lemma shape_fold_update {A} (pth : A -> path) (h : A -> elem -> elem) (l : list A) :
  (forall a x, shape (h a x) = shape x) ->
  forall e, shape (List.fold_left (fun e a => update (pth a) (h a) e) l e) = shape e.
Proof.
  intros Hh. induction l as [|a l IH]; intros e; simpl; [reflexivity|].
  rewrite IH. apply shape_update, Hh.
Qed.

Lemma text_fragments_shape (para : elem) :
  TopPage.text_fragments (shape para) = TopPage.text_fragments para.
Proof.
  unfold TopPage.text_fragments. rewrite iter_shape.
  apply List.flat_map_ext. intros r. rewrite get_shape.
  destruct (get r para); simpl; [now rewrite iter_shape | reflexivity].
Qed.

Lemma text_fragments_same_shape (e e' : elem) :
  shape e = shape e' -> TopPage.text_fragments e = TopPage.text_fragments e'.
Proof.
  intros H. now rewrite <- (text_fragments_shape e), H, text_fragments_shape.
Qed.

(** ** Template Applier: variable substitution in one paragraph *)

Section Substitution.

Variable variables : list (string * string).

Let blank := fun (e : elem) (t : path) => update t (set_text "") e.

Lemma has_variable_empty : TopPage.has_variable variables "" = false.
Proof.
  unfold TopPage.has_variable. induction variables as [|kv l IH]; simpl; [reflexivity|].
  exact IH.
Qed.

Lemma full_text_no_elements (para : elem) :
  TopPage.text_elements para = [] -> TopPage.full_text para = "".
Proof. unfold TopPage.full_text. now intros ->. Qed.

Lemma replace_variables_in_para_unchanged (para : elem) :
  TopPage.has_variable variables (TopPage.full_text para) = false ->
  TopPage.replace_variables_in_para variables para = para.
Proof.
  intros H. unfold TopPage.replace_variables_in_para.
  destruct (iter "w:r" para); [reflexivity|]. now rewrite H.
Qed.

Lemma text_fragments_no_runs (para : elem) :
  iter "w:r" para = [] -> TopPage.text_fragments para = [].
Proof. unfold TopPage.text_fragments. now intros ->. Qed.

Lemma replace_variables_in_para_no_runs (para : elem) :
  iter "w:r" para = [] -> TopPage.replace_variables_in_para variables para = para.
Proof. unfold TopPage.replace_variables_in_para. now intros ->. Qed.

Lemma replace_variables_in_para_changed (para : elem) :
  TopPage.has_variable variables (TopPage.full_text para) = true ->
  exists t0 rest,
    TopPage.text_elements para = t0 :: rest /\
    TopPage.replace_variables_in_para variables para
    = List.fold_left blank rest
        (update t0 (TopPage.write_first
                      (TopPage.substitute variables (TopPage.full_text para))) para).
Proof.
  intros H. unfold TopPage.replace_variables_in_para.
  destruct (TopPage.text_elements para) as [|t0 rest] eqn:E.
  - rewrite (full_text_no_elements para E), has_variable_empty in H. discriminate.
  - exists t0, rest. split; [reflexivity|].
    destruct (iter "w:r" para) eqn:Er.
    + unfold TopPage.text_elements in E.
      rewrite (text_fragments_no_runs para Er) in E. discriminate.
    + now rewrite H.
Qed.

Lemma fold_blank_text_other (l : list path) : forall e q,
  ~ List.In q l -> text_of (List.fold_left blank l e) q = text_of e q.
Proof.
  induction l as [|a l IH]; intros e q Hq; simpl; [reflexivity|].
  rewrite IH by (intros H; apply Hq; now right).
  apply text_of_update_other; [apply keeps_children_set_text|].
  intros ->. apply Hq. now left.
Qed.

Lemma text_of_blank_valid (a q : path) (e : elem) :
  text_of e q <> None -> text_of (blank e a) q <> None.
Proof.
  intros H. unfold blank.
  destruct (List.list_eq_dec Nat.eq_dec a q) as [->|Hne].
  - rewrite text_of_update_same. unfold text_of in H.
    destruct (get q e); [discriminate | contradiction].
  - now rewrite text_of_update_other by (auto using keeps_children_set_text).
Qed.

Lemma fold_blank_text_in (l : list path) : forall e q,
  List.In q l -> text_of e q <> None ->
  text_of (List.fold_left blank l e) q = Some (Some "").
Proof.
  induction l as [|a l IH]; intros e q Hin Hv; simpl; [contradiction|].
  destruct (List.in_dec (List.list_eq_dec Nat.eq_dec) q l) as [Hl|Hl].
  - apply IH; [exact Hl | now apply text_of_blank_valid].
  - destruct Hin as [->|Hin]; [|contradiction].
    rewrite fold_blank_text_other by exact Hl.
    unfold blank. rewrite text_of_update_same. unfold text_of in Hv.
    destruct (get q e) as [x|]; [now destruct x | contradiction].
Qed.

Lemma has_text_at_text_of (e : elem) (q : path) :
  TopPage.has_text_at e q
  = match text_of e q with
    | Some (Some s) => PyStr.truthy s
    | _ => false
    end.
Proof.
  unfold TopPage.has_text_at, text_of, has_text.
  destruct (get q e) as [x|]; reflexivity.
Qed.

Lemma text_at_text_of (e : elem) (q : path) :
  TopPage.text_at e q
  = match text_of e q with
    | Some (Some s) => s
    | _ => ""
    end.
Proof.
  unfold TopPage.text_at, text_of, text_or_empty.
  destruct (get q e) as [x|]; reflexivity.
Qed.

Lemma text_element_valid (para : elem) (q : path) :
  List.In q (TopPage.text_elements para) -> text_of para q <> None.
Proof.
  unfold TopPage.text_elements. intros H. apply List.filter_In in H.
  destruct H as [_ H]. rewrite has_text_at_text_of in H.
  destruct (text_of para q); [discriminate | discriminate].
Qed.

(** the texts of a paragraph that holds a variable, after the loop body *)
Lemma replace_variables_in_para_texts (para : elem) (t0 : path) (rest : list path) :
  List.NoDup (TopPage.text_fragments para) ->
  TopPage.has_variable variables (TopPage.full_text para) = true ->
  TopPage.text_elements para = t0 :: rest ->
  let para' := TopPage.replace_variables_in_para variables para in
  text_of para' t0
    = Some (Some (TopPage.substitute variables (TopPage.full_text para))) /\
  (forall q, List.In q rest -> text_of para' q = Some (Some "")) /\
  (forall q, ~ List.In q (t0 :: rest) -> text_of para' q = text_of para q).
Proof.
  intros Hnd Hvar Hel para'.
  destruct (replace_variables_in_para_changed para Hvar) as [t0' [rest' [Hel' Hres]]].
  rewrite Hel in Hel'. injection Hel' as <- <-.
  assert (Hnd' : List.NoDup (t0 :: rest)).
  { rewrite <- Hel. now apply List.NoDup_filter. }
  assert (Hv0 : text_of para t0 <> None).
  { apply text_element_valid. rewrite Hel. now left. }
  inversion Hnd' as [|? ? Hnotin Hndrest]; subst.
  unfold para'. rewrite Hres. split; [|split].
  - rewrite fold_blank_text_other by exact Hnotin.
    rewrite text_of_update_same. unfold text_of in Hv0.
    destruct (get t0 para) as [x|]; [now destruct x | contradiction].
  - intros q Hq. apply fold_blank_text_in; [exact Hq|].
    rewrite text_of_update_other.
    + apply text_element_valid. rewrite Hel. now right.
    + apply keeps_children_write_first.
    + intros ->. contradiction.
  - intros q Hq. rewrite fold_blank_text_other by (intros H; apply Hq; now right).
    apply text_of_update_other; [apply keeps_children_write_first|].
    intros ->. apply Hq. now left.
Qed.

Lemma shape_replace_variables_in_para (para : elem) :
  shape (TopPage.replace_variables_in_para variables para) = shape para.
Proof.
  unfold TopPage.replace_variables_in_para.
  destruct (iter "w:r" para); [reflexivity|].
  destruct (negb _); [reflexivity|].
  destruct (TopPage.text_elements para) as [|t0 rest]; [reflexivity|].
  rewrite (shape_fold_update (fun t => t) (fun _ => set_text ""))
    by (intros _; apply shape_keeps_children, keeps_children_set_text).
  apply shape_update, shape_keeps_children, keeps_children_write_first.
Qed.

End Substitution.

(** C1, as the code has it: in any element, take a paragraph that neither
    lies inside another paragraph nor has one inside it, and none of whose
    text fragments is visited twice (other paragraphs of the element may be
    nested as they like), and let S be the joined text of its non-empty
    fragments.  When S
    holds a token of a configured variable, the first non-empty fragment
    holds S with the variables replaced one after the other, every other
    non-empty fragment holds the empty string, every other fragment of the
    paragraph is empty, and no text outside these changed; the fragments
    themselves stay in place.  When S holds no token, and so when the
    paragraph has no runs, the paragraph is as it was. *)
Theorem replace_variables_collapses_paragraph
  (variables : list (string * string)) (element : elem) (p : path) (para : elem) :
  get p element = Some para ->
  paragraph_apart element p = true ->
  distinct (TopPage.text_fragments para) = true ->
  exists para',
    get p (TopPage._replace_variables_in_element variables element) = Some para' /\
    TopPage.text_fragments para' = TopPage.text_fragments para /\
    (iter "w:r" para = [] -> para' = para) /\
    if TopPage.has_variable variables (TopPage.full_text para) then
      exists t0 rest,
        TopPage.text_elements para = t0 :: rest /\
        text_of para' t0
          = Some (Some (TopPage.substitute variables (TopPage.full_text para))) /\
        (forall q, List.In q rest -> text_of para' q = Some (Some "")) /\
        (forall q, List.In q (TopPage.text_fragments para) -> q <> t0 ->
                   TopPage.has_text_at para' q = false) /\
        (forall q, ~ List.In q (t0 :: rest) -> text_of para' q = text_of para q)
    else para' = para.
Proof.
  intros Hget Hapart Hdist.
  exists (TopPage.replace_variables_in_para variables para).
  split; [|split; [|split]].
  - unfold TopPage._replace_variables_in_element.
    rewrite (fold_update_get_apart (TopPage.replace_variables_in_para variables)
               p (iter "w:p" element) Hapart element).
    now rewrite Hget.
  - apply text_fragments_same_shape, shape_replace_variables_in_para.
  - apply replace_variables_in_para_no_runs.
  - destruct (TopPage.has_variable variables (TopPage.full_text para)) eqn:Hvar;
      [|now apply replace_variables_in_para_unchanged].
    destruct (replace_variables_in_para_changed variables para Hvar)
      as [t0 [rest [Hel _]]].
    apply distinct_NoDup in Hdist.
    destruct (replace_variables_in_para_texts variables para t0 rest Hdist Hvar Hel)
      as [H0 [Hrest Hother]].
    exists t0, rest. repeat split; try assumption.
    intros q Hq Hne. rewrite has_text_at_text_of.
    destruct (List.in_dec (List.list_eq_dec Nat.eq_dec) q rest) as [Hr|Hr].
    + now rewrite (Hrest q Hr).
    + assert (Hnot : ~ List.In q (t0 :: rest)) by (intros [->|H]; [congruence | contradiction]).
      rewrite (Hother q Hnot), <- has_text_at_text_of.
      destruct (TopPage.has_text_at para q) eqn:Ht; [|reflexivity].
      exfalso. apply Hnot. rewrite <- Hel. unfold TopPage.text_elements.
      apply List.filter_In. now split.
Qed.

Lemma replace_variables_collapses_paragraph_witness :
  let variables := [("DocCode", "D-001"); ("DocName", "Spec"); ("Version", "1.0")] in
  let t s := Elem "w:t" [] (Some s) [] in
  let r cs := Elem "w:r" [] None cs in
  let para := Elem "w:p" [] None [r [t "$Doc"]; r [t "Code rev $Ver"; t "sion"]] in
  let box := Elem "w:txbxContent" [] None [Elem "w:p" [] None [r [t "$DocName"]]] in
  let element := Elem "w:hdr" [] None [para; Elem "w:p" [] None [r [box]]] in
  exists para',
    get [0] (TopPage._replace_variables_in_element variables element) = Some para' /\
    TopPage.text_fragments para' = TopPage.text_fragments para /\
    (iter "w:r" para = [] -> para' = para) /\
    if TopPage.has_variable variables (TopPage.full_text para) then
      exists t0 rest,
        TopPage.text_elements para = t0 :: rest /\
        text_of para' t0
          = Some (Some (TopPage.substitute variables (TopPage.full_text para))) /\
        (forall q, List.In q rest -> text_of para' q = Some (Some "")) /\
        (forall q, List.In q (TopPage.text_fragments para) -> q <> t0 ->
                   TopPage.has_text_at para' q = false) /\
        (forall q, ~ List.In q (t0 :: rest) -> text_of para' q = text_of para q)
    else para' = para.
Proof.
  intros variables t r para box element.
  apply (replace_variables_collapses_paragraph variables element [0] para).
  - reflexivity.
  - reflexivity.
  - reflexivity.
Defined.

(** C1 as stated fails: the text goes to the first non-empty fragment.  Here
    the paragraph's first fragment is empty and stays so, and the second one
    receives the substituted text instead of being blanked. *)
Lemma first_fragment_empty_not_written :
  let variables := [("DocCode", "D-001"); ("DocName", "Spec"); ("Version", "1.0")] in
  let t s := Elem "w:t" [] (Some s) [] in
  let r cs := Elem "w:r" [] None cs in
  let para := Elem "w:p" [] None [r [t ""]; r [t "$DocCode"]] in
  let out := TopPage._replace_variables_in_element variables para in
  TopPage.text_fragments para = [[0; 0]; [1; 0]] /\
  TopPage.full_text para = "$DocCode" /\
  TopPage.has_variable variables (TopPage.full_text para) = true /\
  text_of out [0; 0] <> Some (Some (TopPage.substitute variables (TopPage.full_text para))) /\
  text_of out [1; 0] <> Some (Some "").
Proof.
  intros variables t r para out.
  repeat split; try reflexivity; vm_compute; discriminate.
Qed.

(** Where a run lies inside another run (a text box in a run) the inner
    fragment is visited twice: it is written and then blanked. *)
Lemma nested_run_text_is_lost :
  let variables := [("DocCode", "D-001")] in
  let t s := Elem "w:t" [] (Some s) [] in
  let r cs := Elem "w:r" [] None cs in
  let box := Elem "w:txbxContent" [] None [Elem "w:p" [] None [r [t "$DocCode"]]] in
  let para := Elem "w:p" [] None [r [box]] in
  text_of (TopPage._replace_variables_in_element variables para) [0; 0; 0; 0; 0]
  = Some (Some "").
Proof. reflexivity. Qed.

(** ** Python's [replace] and the dollar sign *)

Section ReplaceFacts.

Lemma token_cons (name : string) : TopPage.token name = String "$" name.
Proof. reflexivity. Qed.

Lemma replace_go_skip (old new : string) (s : string) : forall k,
  PyStr.replace_go old new k s = PyStr.replace_go old new 0 (PyStr.drop k s).
Proof.
  induction s as [|c s IH]; intros [|k]; simpl; try reflexivity.
  rewrite IH. now destruct k, s.
Qed.

Lemma prefix_cons (a b : ascii) (s1 s2 : string) :
  prefix (String a s1) (String b s2) = Ascii.eqb a b && prefix s1 s2.
Proof.
  simpl. destruct (ascii_dec a b) as [->|Hne].
  - now rewrite Ascii.eqb_refl.
  - apply Ascii.eqb_neq in Hne. now rewrite Hne.
Qed.

Lemma prefix_split (a : string) : forall s,
  prefix a s = true -> s = (a ++ PyStr.drop (String.length a) s)%string.
Proof.
  induction a as [|c a IH]; intros s H; [reflexivity|].
  destruct s as [|d s]; [discriminate|].
  rewrite prefix_cons in H. apply andb_prop in H. destruct H as [Hc Ha].
  apply Ascii.eqb_eq in Hc. subst d. simpl. f_equal. now apply IH.
Qed.

Lemma prefix_app (a b : string) : prefix a (a ++ b)%string = true.
Proof.
  induction a as [|c a IH]; [now destruct b|].
  simpl String.append. now rewrite prefix_cons, Ascii.eqb_refl.
Qed.

Lemma length_drop_le (k : nat) : forall s, String.length (PyStr.drop k s) <= String.length s.
Proof.
  induction k as [|k IH]; intros [|c s]; simpl; try lia.
  specialize (IH s). lia.
Qed.

Lemma tokenized_drop (names : list string) (k : nat) : forall s,
  tokenized names s = true -> tokenized names (PyStr.drop k s) = true.
Proof.
  induction k as [|k IH]; intros [|c s] H; simpl; try assumption.
  apply IH. simpl in H. now apply andb_prop in H.
Qed.

Lemma tokenized_app_no_dollar (names : list string) (a b : string) :
  no_dollar a = true -> tokenized names b = true -> tokenized names (a ++ b)%string = true.
Proof.
  induction a as [|c a IH]; intros Ha Hb; [exact Hb|].
  simpl in *. apply andb_prop in Ha. destruct Ha as [Hc Ha].
  apply negb_true_iff in Hc. rewrite Hc. now apply IH.
Qed.

Lemma tokenized_nil (s : string) : tokenized [] s = true -> no_dollar s = true.
Proof.
  induction s as [|c s IH]; intros H; [reflexivity|].
  simpl in *. apply andb_prop in H. destruct H as [Hc Hs].
  destruct (Ascii.eqb c dollar); [discriminate|]. now apply IH.
Qed.

Lemma no_dollar_tokenized (names : list string) (s : string) :
  no_dollar s = true -> tokenized names s = true.
Proof.
  intros H.
  induction s as [|c s IH]; [reflexivity|].
  simpl in *. apply andb_prop in H. destruct H as [Hc Hs].
  apply negb_true_iff in Hc. rewrite Hc. now apply IH.
Qed.

(** text without [$] in front of the scan is copied *)
Lemma replace_go_no_dollar_prefix (name new a b : string) :
  no_dollar a = true ->
  PyStr.replace_go (TopPage.token name) new 0 (a ++ b)%string
  = (a ++ PyStr.replace_go (TopPage.token name) new 0 b)%string.
Proof.
  induction a as [|c a IH]; intros Ha; [reflexivity|].
  simpl in Ha. apply andb_prop in Ha. destruct Ha as [Hc Ha].
  apply negb_true_iff in Hc.
  simpl String.append. cbn [PyStr.replace_go].
  rewrite token_cons at 1. rewrite prefix_cons.
  assert (Ascii.eqb "$" c = false) as -> by (rewrite Ascii.eqb_sym; exact Hc).
  simpl. f_equal. now apply IH.
Qed.

Lemma no_dollar_no_token (name s : string) :
  no_dollar s = true -> PyStr.contains (TopPage.token name) s = false.
Proof.
  induction s as [|c s IH]; intros H; [reflexivity|].
  simpl in H. apply andb_prop in H. destruct H as [Hc Hs].
  apply negb_true_iff in Hc.
  cbn [PyStr.contains]. unfold TopPage.token at 1. simpl String.append at 1.
  rewrite prefix_cons.
  assert (Ascii.eqb "$" c = false) as -> by (rewrite Ascii.eqb_sym; exact Hc).
  simpl. now apply IH.
Qed.

Lemma replace_go_absent (old new : string) (s : string) :
  PyStr.contains old s = false -> PyStr.replace_go old new 0 s = s.
Proof.
  induction s as [|c s IH]; intros H; [reflexivity|].
  cbn [PyStr.contains] in H. apply orb_false_elim in H. destruct H as [Hp Hs].
  cbn [PyStr.replace_go]. rewrite Hp. f_equal. now apply IH.
Qed.

End ReplaceFacts.

Section DollarFacts.

Lemma length_append (a b : string) :
  String.length (a ++ b)%string = String.length a + String.length b.
Proof. induction a as [|c a IH]; simpl; [reflexivity | now rewrite IH]. Qed.

(** one pass of [replace] turns text whose dollars start tokens of
    [name :: rest] into text whose dollars start tokens of [rest] *)
Lemma replace_go_tokenized (name new : string) (rest : list string) :
  no_dollar new = true ->
  List.forallb no_dollar rest = true ->
  forall n s,
    String.length s <= n ->
    tokenized (name :: rest) s = true ->
    tokenized rest (PyStr.replace_go (TopPage.token name) new 0 s) = true.
Proof.
  intros Hnew Hrest. induction n as [|n IH]; intros s Hlen Htok.
  - destruct s; [reflexivity | simpl in Hlen; lia].
  - destruct s as [|c s]; [reflexivity|].
    cbn [PyStr.replace_go].
    destruct (prefix (TopPage.token name) (String c s)) eqn:Hp.
    + apply tokenized_app_no_dollar; [exact Hnew|].
      rewrite replace_go_skip. apply IH.
      * pose proof (length_drop_le (String.length (TopPage.token name) - 1) s).
        simpl in Hlen. lia.
      * apply tokenized_drop. simpl in Htok. now apply andb_prop in Htok.
    + pose proof Htok as Htok0.
      cbn [tokenized] in Htok. apply andb_prop in Htok. destruct Htok as [Hc Hs].
      destruct (Ascii.eqb c dollar) eqn:Ec.
      * apply Ascii.eqb_eq in Ec. subst c.
        cbn [List.existsb] in Hc. rewrite Hp, Bool.orb_false_l in Hc.
        apply List.existsb_exists in Hc. destruct Hc as [m [Hm Hpm]].
        rewrite token_cons, prefix_cons in Hpm. apply andb_prop in Hpm. destruct Hpm as [_ Hpm].
        assert (Hmd : no_dollar m = true).
        { rewrite List.forallb_forall in Hrest. now apply Hrest. }
        rewrite (prefix_split m s Hpm).
        rewrite replace_go_no_dollar_prefix by exact Hmd.
        cbn [tokenized]. unfold dollar at 1. rewrite Ascii.eqb_refl.
        apply andb_true_intro. split.
        -- apply List.existsb_exists. exists m. split; [exact Hm|].
           rewrite token_cons, prefix_cons, Ascii.eqb_refl. apply prefix_app.
        -- apply tokenized_app_no_dollar; [exact Hmd|].
           apply IH.
           ++ pose proof (length_drop_le (String.length m) s). simpl in Hlen. lia.
           ++ apply tokenized_drop. exact Hs.
      * cbn [tokenized]. rewrite Ec. simpl. apply IH; [simpl in Hlen; lia | exact Hs].
Qed.

Lemma replace_token (name new s : string) :
  PyStr.replace (TopPage.token name) new s
  = PyStr.replace_go (TopPage.token name) new 0 s.
Proof. reflexivity. Qed.

Lemma plain_variables_names (variables : list (string * string)) :
  plain_variables variables = true ->
  List.forallb no_dollar (List.map fst variables) = true.
Proof.
  unfold plain_variables. induction variables as [|kv l IH]; simpl; [reflexivity|].
  intros H. apply andb_prop in H. destruct H as [Hkv Hl].
  apply andb_prop in Hkv. destruct Hkv as [Hk _]. now rewrite Hk, IH.
Qed.

(** after all passes no [$] is left *)
Lemma substitute_no_dollar (variables : list (string * string)) :
  plain_variables variables = true ->
  forall s,
    tokenized (List.map fst variables) s = true ->
    no_dollar (TopPage.substitute variables s) = true.
Proof.
  unfold TopPage.substitute.
  induction variables as [|[k v] l IH]; intros Hplain s Htok;
    cbn [List.fold_left List.map fst snd] in *.
  - now apply tokenized_nil.
  - pose proof Hplain as Hplain0.
    unfold plain_variables in Hplain. simpl in Hplain.
    apply andb_prop in Hplain. destruct Hplain as [Hkv Hl].
    apply andb_prop in Hkv. destruct Hkv as [Hk Hv].
    apply IH; [exact Hl|].
    rewrite replace_token.
    apply (replace_go_tokenized k v (List.map fst l) Hv
             (plain_variables_names l Hl) (String.length s) s (Nat.le_refl _) Htok).
Qed.

Lemma no_dollar_no_variable (variables : list (string * string)) (s : string) :
  no_dollar s = true -> TopPage.has_variable variables s = false.
Proof.
  intros H. unfold TopPage.has_variable.
  induction variables as [|kv l IH]; simpl; [reflexivity|].
  now rewrite (no_dollar_no_token (fst kv) s H).
Qed.

Lemma substitute_absent (variables : list (string * string)) : forall s,
  TopPage.has_variable variables s = false -> TopPage.substitute variables s = s.
Proof.
  unfold TopPage.substitute, TopPage.has_variable.
  induction variables as [|[k v] l IH]; intros s H;
    cbn [List.fold_left List.existsb fst snd] in *; [reflexivity|].
  apply orb_false_elim in H. destruct H as [Hk Hl].
  rewrite replace_token, (replace_go_absent _ v s Hk). now apply IH.
Qed.

End DollarFacts.

(** ** Template Applier: no token remains *)

Section TokenFree.

Variable variables : list (string * string).

Lemma path_eqb_eq (p q : path) : path_eqb p q = true <-> p = q.
Proof.
  unfold path_eqb. destruct (List.list_eq_dec Nat.eq_dec p q); split; congruence.
Qed.

Lemma filter_one (a : path) (l : list path) :
  List.NoDup l -> List.In a l -> List.filter (fun q => path_eqb q a) l = [a].
Proof.
  induction 1 as [|x l Hx Hnd IH]; intros Hin; [contradiction|]. simpl.
  destruct (path_eqb x a) eqn:E.
  - apply path_eqb_eq in E. subst x. f_equal.
    clear IH Hin Hnd. induction l as [|y l IH]; simpl; [reflexivity|].
    destruct (path_eqb y a) eqn:E.
    + apply path_eqb_eq in E. subst y. exfalso. apply Hx. now left.
    + apply IH. intros H. apply Hx. now right.
  - destruct Hin as [->|Hin]; [|now apply IH].
    assert (path_eqb a a = true) by now apply path_eqb_eq. congruence.
Qed.

Lemma filter_none {A} (l : list A) : List.filter (fun _ => false) l = [].
Proof. induction l; simpl; auto. Qed.

Lemma truthy_false (s : string) : PyStr.truthy s = false -> s = "".
Proof. destruct s; [reflexivity | discriminate]. Qed.

(** the joined text of a paragraph after the loop body is the substituted
    joined text *)
Lemma full_text_replace_variables_in_para (para : elem) :
  List.NoDup (TopPage.text_fragments para) ->
  TopPage.full_text (TopPage.replace_variables_in_para variables para)
  = TopPage.substitute variables (TopPage.full_text para).
Proof.
  intros Hnd.
  destruct (TopPage.has_variable variables (TopPage.full_text para)) eqn:Hvar.
  2:{ rewrite replace_variables_in_para_unchanged by exact Hvar.
      symmetry. now apply substitute_absent. }
  destruct (replace_variables_in_para_changed variables para Hvar)
    as [t0 [rest [Hel _]]].
  destruct (replace_variables_in_para_texts variables para t0 rest Hnd Hvar Hel)
    as [H0 [Hrest Hother]].
  set (para' := TopPage.replace_variables_in_para variables para) in *.
  set (new := TopPage.substitute variables (TopPage.full_text para)) in *.
  assert (Hin0 : List.In t0 (TopPage.text_fragments para)).
  { assert (H : List.In t0 (TopPage.text_elements para)) by (rewrite Hel; now left).
    unfold TopPage.text_elements in H. now apply List.filter_In in H. }
  assert (Hfilter : TopPage.text_elements para'
                    = List.filter (fun q => path_eqb q t0 && PyStr.truthy new)
                                  (TopPage.text_fragments para)).
  { unfold TopPage.text_elements.
    rewrite (text_fragments_same_shape para' para)
      by apply shape_replace_variables_in_para.
    apply List.filter_ext_in. intros q Hq.
    rewrite has_text_at_text_of.
    destruct (path_eqb q t0) eqn:E.
    - apply path_eqb_eq in E. subst q. now rewrite H0.
    - simpl.
      assert (Hne : q <> t0) by (intros ->; now rewrite (proj2 (path_eqb_eq t0 t0) eq_refl) in E).
      destruct (List.in_dec (List.list_eq_dec Nat.eq_dec) q rest) as [Hr|Hr].
      + now rewrite (Hrest q Hr).
      + assert (Hnot : ~ List.In q (t0 :: rest))
          by (intros [<-|H]; [congruence | contradiction]).
        rewrite (Hother q Hnot), <- has_text_at_text_of.
        destruct (TopPage.has_text_at para q) eqn:Ht; [|reflexivity].
        exfalso. apply Hnot. rewrite <- Hel. unfold TopPage.text_elements.
        apply List.filter_In. now split. }
  unfold TopPage.full_text at 1. rewrite Hfilter.
  destruct (PyStr.truthy new) eqn:Et.
  - rewrite (List.filter_ext _ (fun q => path_eqb q t0))
      by (intros q; apply Bool.andb_true_r).
    rewrite filter_one by assumption. simpl.
    now rewrite text_at_text_of, H0.
  - rewrite (List.filter_ext _ (fun _ => false))
      by (intros q; apply Bool.andb_false_r).
    rewrite filter_none. simpl. symmetry. now apply truthy_false.
Qed.

End TokenFree.

(** C7, as the code has it: let no configured name and no replacement value
    contain a dollar sign, and let every dollar sign of a paragraph's joined
    text start the token of a configured variable.  Then, in any element and
    for a paragraph that neither lies inside another paragraph nor has one
    inside it and none of whose fragments is visited twice, the joined text
    after the run is the joined text with the variables replaced one after
    the other, it has no dollar sign left, and so no token of a configured
    variable remains. *)
Theorem substituted_paragraph_has_no_token
  (variables : list (string * string)) (element : elem) (p : path) (para : elem) :
  get p element = Some para ->
  paragraph_apart element p = true ->
  distinct (TopPage.text_fragments para) = true ->
  plain_variables variables = true ->
  tokenized (List.map fst variables) (TopPage.full_text para) = true ->
  exists para',
    get p (TopPage._replace_variables_in_element variables element) = Some para' /\
    TopPage.full_text para'
      = TopPage.substitute variables (TopPage.full_text para) /\
    no_dollar (TopPage.full_text para') = true /\
    TopPage.has_variable variables (TopPage.full_text para') = false.
Proof.
  intros Hget Hapart Hdist Hplain Htok.
  exists (TopPage.replace_variables_in_para variables para).
  assert (Hfull : TopPage.full_text (TopPage.replace_variables_in_para variables para)
                  = TopPage.substitute variables (TopPage.full_text para)).
  { apply full_text_replace_variables_in_para. now apply distinct_NoDup. }
  assert (Hnd : no_dollar (TopPage.full_text
                             (TopPage.replace_variables_in_para variables para)) = true).
  { rewrite Hfull. now apply substitute_no_dollar. }
  split; [|split; [exact Hfull | split; [exact Hnd|]]].
  - unfold TopPage._replace_variables_in_element.
    rewrite (fold_update_get_apart (TopPage.replace_variables_in_para variables)
               p (iter "w:p" element) Hapart element).
    now rewrite Hget.
  - now apply no_dollar_no_variable.
Qed.

Lemma substituted_paragraph_has_no_token_witness :
  let variables := [("DocCode", "D-001"); ("DocName", "Spec"); ("Version", "1.0")] in
  let t s := Elem "w:t" [] (Some s) [] in
  let r cs := Elem "w:r" [] None cs in
  let para := Elem "w:p" [] None [r [t "$Doc"]; r [t "Code rev $Ver"; t "sion"]] in
  let box := Elem "w:txbxContent" [] None [Elem "w:p" [] None [r [t "$DocName"]]] in
  let element := Elem "w:hdr" [] None [para; Elem "w:p" [] None [r [box]]] in
  exists para',
    get [0] (TopPage._replace_variables_in_element variables element) = Some para' /\
    TopPage.full_text para'
      = TopPage.substitute variables (TopPage.full_text para) /\
    no_dollar (TopPage.full_text para') = true /\
    TopPage.has_variable variables (TopPage.full_text para') = false.
Proof.
  intros variables t r para box element.
  apply (substituted_paragraph_has_no_token variables element [0] para).
  - reflexivity.
  - reflexivity.
  - reflexivity.
  - reflexivity.
  - reflexivity.
Defined.

(** C7 as stated fails: a replacement value may itself be a token, and the
    single pass in dictionary order leaves it in the output. *)
Lemma value_with_token_remains :
  let variables := [("DocCode", "D-001"); ("DocName", "Spec"); ("Version", "$DocCode")] in
  let t s := Elem "w:t" [] (Some s) [] in
  let r cs := Elem "w:r" [] None cs in
  let para := Elem "w:p" [] None [r [t "Rev $Version"]] in
  let out := TopPage._replace_variables_in_element variables para in
  TopPage.full_text out = "Rev $DocCode" /\
  TopPage.has_variable variables (TopPage.full_text out) = true.
Proof. split; reflexivity. Qed.

(** the same with plain values: a token arises where a value closes up with
    the text before it *)
Lemma joined_token_remains :
  let variables := [("DocCode", "D-001"); ("DocName", "Spec"); ("Version", "Code")] in
  let t s := Elem "w:t" [] (Some s) [] in
  let r cs := Elem "w:r" [] None cs in
  let para := Elem "w:p" [] None [r [t "$Doc$Version"]] in
  let out := TopPage._replace_variables_in_element variables para in
  TopPage.full_text out = "$DocCode" /\
  TopPage.has_variable variables (TopPage.full_text out) = true.
Proof. split; reflexivity. Qed.

(** ** Template Applier: the tab fix *)

Lemma in_iter_children t (cs : list elem) : forall i p,
  List.In p (iter_children t i cs) ->
  exists j c q, p = (i + j) :: q /\ nth_error cs j = Some c /\ List.In q (iter t c).
Proof.
  induction cs as [|c cs IH]; intros i p H; simpl in H; [contradiction|].
  apply List.in_app_or in H. destruct H as [H|H].
  - apply List.in_map_iff in H. destruct H as [q [<- Hq]].
    exists 0, c, q. now rewrite Nat.add_0_r.
  - destruct (IH (S i) p H) as [j [c' [q [-> [Hn Hq]]]]].
    exists (S j), c', q. repeat split; try assumption. f_equal. lia.
Qed.

(** what [iter] yields is there and has the tag *)
Lemma iter_valid t (e : elem) : forall p,
  List.In p (iter t e) -> exists x, get p e = Some x /\ tag x = t.
Proof.
  induction e as [tg a x cs IH] using elem_induction. intros p H.
  rewrite iter_unfold in H. apply List.in_app_or in H. destruct H as [H|H].
  - simpl in H. destruct (String.eqb tg t) eqn:E; [|contradiction].
    destruct H as [<-|[]]. eexists. split; [reflexivity|].
    now apply String.eqb_eq.
  - apply in_iter_children in H. destruct H as [j [c [q [-> [Hn Hq]]]]].
    cbn [children] in Hn. cbn [get children Nat.add]. rewrite Hn.
    rewrite List.Forall_forall in IH.
    apply (IH c); [now apply List.nth_error_In in Hn | exact Hq].
Qed.

Lemma children_remove_descendants t (e : elem) :
  children (TopPage.remove_descendants t e)
  = List.map (TopPage.remove_descendants t)
             (List.filter (fun c => negb (has_tag t c)) (children e)).
Proof.
  destruct e as [tg a x cs]. simpl.
  induction cs as [|c cs IH]; simpl; [reflexivity|].
  destruct (has_tag t c); simpl; [exact IH | now rewrite IH].
Qed.

Lemma tag_remove_descendants t (e : elem) : tag (TopPage.remove_descendants t e) = tag e.
Proof. now destruct e. Qed.

Lemma iter_children_nil t (cs : list elem) :
  List.Forall (fun c => iter t c = []) cs -> forall i, iter_children t i cs = [].
Proof.
  induction 1 as [|c cs Hc _ IH]; intros i; simpl; [reflexivity|].
  now rewrite Hc, IH.
Qed.

(** after the removal only the element itself can have the tag *)
Lemma iter_remove_descendants t (e : elem) :
  iter t (TopPage.remove_descendants t e)
  = if String.eqb (tag e) t then [[]] else [].
Proof.
  induction e as [tg a x cs IH] using elem_induction.
  rewrite iter_unfold, tag_remove_descendants, children_remove_descendants.
  rewrite iter_children_nil; [apply List.app_nil_r|].
  apply List.Forall_forall. intros c Hc.
  apply List.in_map_iff in Hc. destruct Hc as [c0 [<- Hc0]].
  apply List.filter_In in Hc0. destruct Hc0 as [Hin Htag].
  rewrite List.Forall_forall in IH. rewrite (IH c0 Hin).
  apply negb_true_iff in Htag. unfold has_tag in Htag. now rewrite Htag.
Qed.

Lemma no_tab_remove_descendants (x : elem) :
  tag x = "w:r" -> no_tab (TopPage.remove_descendants "w:tab" x).
Proof.
  intros H. unfold no_tab. rewrite iter_remove_descendants, H. reflexivity.
Qed.

Lemma all_diverge_nth (l : list path) :
  all_diverge l = true ->
  forall i j a b, nth_error l i = Some a -> nth_error l j = Some b -> i <> j ->
                  diverge a b = true.
Proof.
  induction l as [|x l IH]; intros H i j a b Hi Hj Hne; [now destruct i|].
  simpl in H. apply andb_prop in H. destruct H as [Hx Hl].
  rewrite List.forallb_forall in Hx.
  destruct i as [|i], j as [|j]; simpl in *.
  - congruence.
  - injection Hi as <-. apply Hx. now apply List.nth_error_In in Hj.
  - injection Hj as <-. rewrite diverge_sym. apply Hx.
    now apply List.nth_error_In in Hi.
  - apply (IH Hl i j); congruence.
Qed.

Section TabFix.

Variable para : elem.

Let runs := iter "w:r" para.

Hypothesis runs_apart : all_diverge runs = true.

Let strip := TopPage.remove_descendants "w:tab".

Let step := fun (e : elem) (ir : nat * path) =>
  let '(i, r) := ir in
  match get r e with
  | Some run =>
      if TopPage.run_has_label run then
        let e1 := update r strip e in
        if Nat.ltb 0 i then update (List.nth (i - 1) runs []) strip e1 else e1
      else e
  | None => e
  end.

(** every run is there *)
Let runs_valid (e : elem) : Prop :=
  forall j r, nth_error runs j = Some r -> exists x, get r e = Some x /\ tag x = "w:r".

(** the runs from [k] on are as at the start *)
Let runs_fresh (k : nat) (e : elem) : Prop :=
  forall j r, k <= j -> nth_error runs j = Some r -> get r e = get r para.

(** the labelled runs before [k] and their predecessors hold no tab *)
Let runs_fixed (k : nat) (e : elem) : Prop :=
  forall j r, j < k -> nth_error runs j = Some r -> run_labelled para r = true ->
    tab_free_at e r /\
    (forall r0, 0 < j -> nth_error runs (j - 1) = Some r0 -> tab_free_at e r0).

Lemma runs_valid_start : runs_valid para.
Proof.
  intros j r Hj. apply iter_valid. unfold runs in Hj. now apply List.nth_error_In in Hj.
Qed.

Lemma update_run_facts (m : nat) (r' : path) (e : elem) :
  nth_error runs m = Some r' ->
  runs_valid e ->
  runs_valid (update r' strip e) /\
  (forall j r, j <> m -> nth_error runs j = Some r ->
               get r (update r' strip e) = get r e) /\
  (forall j r, nth_error runs j = Some r -> tab_free_at e r ->
               tab_free_at (update r' strip e) r) /\
  tab_free_at (update r' strip e) r'.
Proof.
  intros Hm Hvalid. unfold runs_valid in *.
  assert (Hother : forall j r, j <> m -> nth_error runs j = Some r ->
                               get r (update r' strip e) = get r e).
  { intros j r Hne Hj. apply get_update_diverge.
    apply (all_diverge_nth runs runs_apart m j); auto. }
  assert (Hnew : tab_free_at (update r' strip e) r').
  { destruct (Hvalid m r' Hm) as [x [Hx Ht]].
    exists (strip x). split.
    - now rewrite get_update_same, Hx.
    - now apply no_tab_remove_descendants. }
  split; [|split; [exact Hother | split; [|exact Hnew]]].
  - intros j r Hj. destruct (Nat.eq_dec j m) as [->|Hne].
    + assert (r = r') by congruence. subst r.
      destruct (Hvalid m r' Hm) as [x [Hx Ht]].
      exists (strip x). split.
      * now rewrite get_update_same, Hx.
      * unfold strip. now rewrite tag_remove_descendants.
    + rewrite (Hother j r Hne Hj). now apply (Hvalid j).
  - intros j r Hj Hfree. destruct (Nat.eq_dec j m) as [->|Hne].
    + assert (r = r') by congruence. now subst r.
    + destruct Hfree as [x [Hx Hn]]. exists x. split; [|exact Hn].
      now rewrite (Hother j r Hne Hj).
Qed.

Lemma step_keeps_invariant (k : nat) (r : path) (e : elem) :
  nth_error runs k = Some r ->
  runs_valid e -> runs_fresh k e -> runs_fixed k e ->
  runs_valid (step e (k, r)) /\ runs_fresh (S k) (step e (k, r)) /\
  runs_fixed (S k) (step e (k, r)).
Proof.
  intros Hk Hvalid Hfresh Hfixed.
  unfold runs_valid, runs_fresh, runs_fixed in *.
  destruct (Hvalid k r Hk) as [run [Hrun Htag]].
  assert (Hlab : run_labelled para r = TopPage.run_has_label run).
  { unfold run_labelled. now rewrite <- (Hfresh k r (Nat.le_refl k) Hk), Hrun. }
  unfold step. rewrite Hrun.
  destruct (TopPage.run_has_label run) eqn:El.
  2:{ split; [exact Hvalid|]. split.
      - intros j r' Hle Hj. apply (Hfresh j); [lia | exact Hj].
      - intros j r' Hlt Hj Hl.
        destruct (Nat.eq_dec j k) as [->|Hne]; [|apply (Hfixed j); [lia | assumption..]].
        assert (r' = r) by congruence. subst r'. congruence. }
  destruct (update_run_facts k r e Hk Hvalid) as [Hv1 [Ho1 [Hp1 Hn1]]].
  set (e1 := update r strip e) in *.
  destruct k as [|k].
  - simpl. split; [exact Hv1|]. split.
    + intros j r' Hle Hj. rewrite (Ho1 j r' ltac:(lia) Hj).
      apply (Hfresh j); [lia | exact Hj].
    + intros j r' Hlt Hj Hl. assert (j = 0) by lia. subst j.
      assert (r' = r) by congruence. subst r'.
      split; [exact Hn1 | intros r0 H0; lia].
  - assert (Hprev : exists r0, nth_error runs k = Some r0).
    { destruct (nth_error runs k) as [r0|] eqn:E; [now exists r0|].
      apply List.nth_error_None in E.
      assert (nth_error runs (S k) = None) by (apply List.nth_error_None; lia).
      congruence. }
    destruct Hprev as [r0 Hr0].
    replace (Nat.ltb 0 (S k)) with true by reflexivity.
    replace (S k - 1) with k by lia.
    rewrite (List.nth_error_nth runs k [] Hr0).
    destruct (update_run_facts k r0 e1 Hr0 Hv1) as [Hv2 [Ho2 [Hp2 Hn2]]].
    split; [exact Hv2|]. split.
    + intros j r' Hle Hj.
      rewrite (Ho2 j r' ltac:(lia) Hj).
      rewrite (Ho1 j r' ltac:(lia) Hj).
      apply (Hfresh j); [lia | exact Hj].
    + intros j r' Hlt Hj Hl.
      destruct (Nat.eq_dec j (S k)) as [->|Hne].
      * assert (r' = r) by congruence. subst r'. split.
        -- now apply (Hp2 (S k)).
        -- intros r0' _ H0. replace (S k - 1) with k in H0 by lia.
           assert (r0' = r0) by congruence. now subst r0'.
      * destruct (Hfixed j r' ltac:(lia) Hj Hl) as [Hf Hfp]. split.
        -- apply (Hp2 j); [exact Hj|]. now apply (Hp1 j).
        -- intros r0' Hpos H0. apply (Hp2 (j - 1)); [exact H0|].
           apply (Hp1 (j - 1)); [exact H0|]. now apply Hfp.
Qed.

Lemma fold_step_invariant (l : list path) : forall k e,
  (forall j, nth_error l j = nth_error runs (k + j)) ->
  runs_valid e -> runs_fresh k e -> runs_fixed k e ->
  runs_fixed (k + List.length l)
    (List.fold_left step (List.combine (List.seq k (List.length l)) l) e).
Proof.
  induction l as [|r l IH]; intros k e Hl Hvalid Hfresh Hfixed; simpl.
  - now rewrite Nat.add_0_r.
  - assert (Hk : nth_error runs k = Some r).
    { specialize (Hl 0). simpl in Hl. now rewrite Nat.add_0_r in Hl. }
    destruct (step_keeps_invariant k r e Hk Hvalid Hfresh Hfixed) as [Hv [Hf Hx]].
    rewrite <- Nat.add_succ_comm. apply IH; try assumption.
    intros j. specialize (Hl (S j)). simpl in Hl.
    now rewrite <- Nat.add_succ_comm in Hl.
Qed.

(** the loop body of [_remove_tab_before_販売名] on a paragraph whose joined
    text has the label *)
Lemma remove_tab_in_para_fixed :
  PyStr.contains TopPage.label (TopPage.full_text para) = true ->
  forall i r, nth_error runs i = Some r -> run_labelled para r = true ->
    tab_free_at (TopPage.remove_tab_in_para para) r /\
    (forall r0, 0 < i -> nth_error runs (i - 1) = Some r0 ->
                tab_free_at (TopPage.remove_tab_in_para para) r0).
Proof.
  intros Hlabel i r Hi Hl.
  assert (Hfinal : runs_fixed (0 + List.length runs)
            (List.fold_left step (List.combine (List.seq 0 (List.length runs)) runs) para)).
  { apply fold_step_invariant.
    - reflexivity.
    - apply runs_valid_start.
    - intros j r' _ _. reflexivity.
    - intros j r' Hlt. lia. }
  assert (Hres : TopPage.remove_tab_in_para para
                 = List.fold_left step (List.combine (List.seq 0 (List.length runs)) runs) para).
  { unfold TopPage.remove_tab_in_para. fold runs.
    destruct runs as [|r1 rs] eqn:E; [now destruct i|].
    rewrite Hlabel. reflexivity. }
  rewrite Hres. apply (Hfinal i r); [|exact Hi | exact Hl].
  apply List.nth_error_Some. simpl. congruence.
Qed.

End TabFix.

Lemma remove_tab_in_para_unchanged (para : elem) :
  PyStr.contains TopPage.label (TopPage.full_text para) = false ->
  TopPage.remove_tab_in_para para = para.
Proof.
  intros H. unfold TopPage.remove_tab_in_para.
  destruct (iter "w:r" para); [reflexivity|]. now rewrite H.
Qed.

(** a paragraph none of whose runs has the whole label in one fragment is
    left alone, also when its joined text has the label *)
Lemma remove_tab_in_para_unlabelled (para : elem) :
  List.forallb (fun r => negb (run_labelled para r)) (iter "w:r" para) = true ->
  TopPage.remove_tab_in_para para = para.
Proof.
  intros H. unfold TopPage.remove_tab_in_para.
  destruct (iter "w:r" para) as [|r0 rs] eqn:Er; [reflexivity|].
  destruct (negb _); [reflexivity|].
  rewrite List.forallb_forall in H.
  assert (Hall : forall ir, List.In ir (enumerate (r0 :: rs)) ->
                            List.In (snd ir) (r0 :: rs)).
  { intros [i r] Hin. unfold enumerate in Hin. now apply List.in_combine_r in Hin. }
  induction (enumerate (r0 :: rs)) as [|[i r] l IH]; simpl; [reflexivity|].
  assert (Hr : run_labelled para r = false).
  { apply negb_true_iff, H. apply (Hall (i, r)). now left. }
  unfold run_labelled in Hr.
  destruct (get r para) as [run|];
    [rewrite Hr|]; apply IH; intros ir Hin; apply Hall; now right.
Qed.

(** C8, as the code has it: in any header, take a paragraph that neither
    lies inside another paragraph nor has one inside it.  When its joined
    text lacks the label it comes out as it was, all tabs kept.  When none
    of its runs has a text fragment that holds the whole label, as with a
    label split over several fragments, it comes out as it was too.  When
    its joined text has the label and its runs do not lie inside one
    another, every run with a text fragment that holds the whole label ends
    up without any tab element, and so does the run just before it. *)
Theorem tab_fix_clears_labelled_runs (element : elem) (p : path) (para : elem) :
  get p element = Some para ->
  paragraph_apart element p = true ->
  exists para',
    get p (TopPage._remove_tab_before_販売名 element) = Some para' /\
    (PyStr.contains TopPage.label (TopPage.full_text para) = false -> para' = para) /\
    (List.forallb (fun r => negb (run_labelled para r)) (iter "w:r" para) = true ->
     para' = para) /\
    (PyStr.contains TopPage.label (TopPage.full_text para) = true ->
     no_nested "w:r" para = true ->
     forall i r,
       nth_error (iter "w:r" para) i = Some r ->
       run_labelled para r = true ->
       tab_free_at para' r /\
       (forall r0, 0 < i -> nth_error (iter "w:r" para) (i - 1) = Some r0 ->
                   tab_free_at para' r0)).
Proof.
  intros Hget Hapart.
  exists (TopPage.remove_tab_in_para para). split; [|split; [|split]].
  - unfold TopPage._remove_tab_before_販売名.
    rewrite (fold_update_get_apart TopPage.remove_tab_in_para
               p (iter "w:p" element) Hapart element).
    now rewrite Hget.
  - apply remove_tab_in_para_unchanged.
  - apply remove_tab_in_para_unlabelled.
  - intros Hl Hruns i r Hi Hr.
    now apply (remove_tab_in_para_fixed para Hruns Hl i r).
Qed.

Lemma tab_fix_clears_labelled_runs_witness :
  let t s := Elem "w:t" [] (Some s) [] in
  let tab := Elem "w:tab" [] None [] in
  let r cs := Elem "w:r" [] None cs in
  let para := Elem "w:p" [] None [r [tab]; r [tab; t "販売名"; tab]; r [t "x"; tab]] in
  let box := Elem "w:txbxContent" [] None [Elem "w:p" [] None [r [tab; t "y"]]] in
  let element := Elem "w:hdr" [] None [para; Elem "w:p" [] None [r [box]]] in
  exists para',
    get [0] (TopPage._remove_tab_before_販売名 element) = Some para' /\
    (PyStr.contains TopPage.label (TopPage.full_text para) = false -> para' = para) /\
    (List.forallb (fun r => negb (run_labelled para r)) (iter "w:r" para) = true ->
     para' = para) /\
    (PyStr.contains TopPage.label (TopPage.full_text para) = true ->
     no_nested "w:r" para = true ->
     forall i r,
       nth_error (iter "w:r" para) i = Some r ->
       run_labelled para r = true ->
       tab_free_at para' r /\
       (forall r0, 0 < i -> nth_error (iter "w:r" para) (i - 1) = Some r0 ->
                   tab_free_at para' r0)).
Proof.
  intros t tab r para box element.
  apply (tab_fix_clears_labelled_runs element [0] para).
  - reflexivity.
  - reflexivity.
Defined.

(** C8 as stated fails: the joined text has the label, split over two
    fragments; no single fragment holds it, and the tab right before it
    stays. *)
Lemma split_label_keeps_tab :
  let t s := Elem "w:t" [] (Some s) [] in
  let tab := Elem "w:tab" [] None [] in
  let r cs := Elem "w:r" [] None cs in
  let para := Elem "w:p" [] None [r [tab]; r [t "販売"]; r [t "名"]] in
  PyStr.contains TopPage.label (TopPage.full_text para) = true /\
  TopPage._remove_tab_before_販売名 para = para /\
  iter "w:tab" (TopPage._remove_tab_before_販売名 para) = [[0; 0]].
Proof. repeat split; reflexivity. Qed.

(** * Further properties of the code *)

(** ** Mutations that change nothing *)

Lemma list_update_id {A} (g : A -> A) (l : list A) : forall i,
  (forall c, nth_error l i = Some c -> g c = c) -> list_update i g l = l.
Proof.
  induction l as [|x l IH]; intros [|i] H; simpl; try reflexivity.
  - now rewrite (H x eq_refl).
  - now rewrite IH.
Qed.

Lemma update_id (f : elem -> elem) (p : path) : forall e,
  (forall x, get p e = Some x -> f x = x) -> update p f e = e.
Proof.
  induction p as [|i p IH]; intros e H; simpl.
  - now apply H.
  - rewrite list_update_id; [apply set_children_same|].
    intros c Hc. apply IH. intros x Hx. apply H. simpl. now rewrite Hc.
Qed.

Lemma fold_update_id (F : elem -> elem) (ps : list path) (e : elem) :
  (forall p x, List.In p ps -> get p e = Some x -> F x = x) ->
  List.fold_left (fun e p => update p F e) ps e = e.
Proof.
  induction ps as [|a l IH]; intros H; simpl; [reflexivity|].
  rewrite update_id by (intros x Hx; apply (H a); [now left | exact Hx]).
  apply IH. intros p x Hp. apply H. now right.
Qed.

(** X1: variable substitution leaves the structure of the element alone: no
    element is added, removed, moved or renamed; only texts and attributes
    can differ afterwards. *)
Theorem replace_variables_keeps_shape (variables : list (string * string)) (element : elem) :
  shape (TopPage._replace_variables_in_element variables element) = shape element.
Proof.
  unfold TopPage._replace_variables_in_element.
  apply (shape_fold_update (fun p => p)
           (fun _ => TopPage.replace_variables_in_para variables)).
  intros _ x. apply shape_replace_variables_in_para.
Qed.

(** X2: an element none of whose paragraphs has a token of a configured
    variable in its joined text comes back from the substitution exactly as
    it was, fragmentation and attributes included. *)
Theorem replace_variables_without_token_unchanged
  (variables : list (string * string)) (element : elem) :
  no_token_paragraphs variables element = true ->
  TopPage._replace_variables_in_element variables element = element.
Proof.
  intros H. unfold TopPage._replace_variables_in_element.
  apply fold_update_id. intros p x Hp Hx.
  unfold no_token_paragraphs in H. rewrite List.forallb_forall in H.
  specialize (H p Hp). rewrite Hx in H. apply negb_true_iff in H.
  now apply replace_variables_in_para_unchanged.
Qed.

Lemma replace_variables_without_token_unchanged_witness :
  let variables := [("DocCode", "D-001"); ("DocName", "Spec"); ("Version", "1.0")] in
  let t s := Elem "w:t" [] (Some s) [] in
  let r cs := Elem "w:r" [] None cs in
  let element :=
    Elem "w:hdr" [] None
      [Elem "w:p" [] None [r [t "Price: $"; t "5"]; r [t "$Doc"]];
       Elem "w:p" [] None [r [t "plain"]]] in
  TopPage._replace_variables_in_element variables element = element.
Proof.
  intros variables t r element.
  apply (replace_variables_without_token_unchanged variables element).
  reflexivity.
Defined.

(** X3: an element none of whose paragraphs has the label in its joined
    text passes the tab fix unchanged, whatever tabs it holds. *)
Theorem tab_fix_without_label_unchanged (element : elem) :
  no_label_paragraphs element = true ->
  TopPage._remove_tab_before_販売名 element = element.
Proof.
  intros H. unfold TopPage._remove_tab_before_販売名.
  apply fold_update_id. intros p x Hp Hx.
  unfold no_label_paragraphs in H. rewrite List.forallb_forall in H.
  specialize (H p Hp). rewrite Hx in H. apply negb_true_iff in H.
  now apply remove_tab_in_para_unchanged.
Qed.

Lemma tab_fix_without_label_unchanged_witness :
  let t s := Elem "w:t" [] (Some s) [] in
  let tab := Elem "w:tab" [] None [] in
  let r cs := Elem "w:r" [] None cs in
  let element :=
    Elem "w:hdr" [] None
      [Elem "w:p" [] None [r [tab; t "Document"]; r [tab; t "D-001"]]] in
  TopPage._remove_tab_before_販売名 element = element.
Proof.
  intros t tab r element.
  apply (tab_fix_without_label_unchanged element). reflexivity.
Defined.

Lemma iter_children_eq_nil t (cs : list elem) : forall i,
  iter_children t i cs = [] -> List.Forall (fun c => iter t c = []) cs.
Proof.
  induction cs as [|c cs IH]; intros i H; [constructor|].
  simpl in H. apply List.app_eq_nil in H. destruct H as [Hc Hcs].
  constructor; [|now apply (IH (S i))].
  destruct (iter t c); [reflexivity | discriminate].
Qed.

Lemma iter_nil_children t (e : elem) :
  iter t e = [] -> List.Forall (fun c => iter t c = []) (children e).
Proof.
  rewrite iter_unfold. intros H. apply List.app_eq_nil in H.
  now apply (iter_children_eq_nil t (children e) 0).
Qed.

Lemma iter_nil_has_tag t (e : elem) : iter t e = [] -> has_tag t e = false.
Proof.
  rewrite iter_unfold. unfold has_tag. intros H. apply List.app_eq_nil in H.
  destruct (String.eqb (tag e) t); [destruct H; discriminate | reflexivity].
Qed.

Lemma iter_nil_get t (p : path) : forall e x,
  iter t e = [] -> get p e = Some x -> iter t x = [].
Proof.
  induction p as [|i p IH]; intros e x He Hx; simpl in Hx.
  - now injection Hx as <-.
  - destruct (nth_error (children e) i) as [c|] eqn:Ec; [|discriminate].
    apply (IH c x); [|exact Hx].
    pose proof (iter_nil_children t e He) as Hall.
    rewrite List.Forall_forall in Hall. apply Hall.
    now apply List.nth_error_In in Ec.
Qed.

(** removing what is not there changes nothing *)
Lemma remove_descendants_absent t (e : elem) :
  iter t e = [] -> TopPage.remove_descendants t e = e.
Proof.
  induction e as [tg a x cs IH] using elem_induction. intros H.
  pose proof (iter_nil_children t _ H) as Hall. simpl in Hall.
  simpl. f_equal. clear H.
  induction cs as [|c cs IHcs]; [reflexivity|].
  inversion IH as [|? ? Hc Hcs]; subst.
  inversion Hall as [|? ? Hic Hics]; subst.
  rewrite (iter_nil_has_tag t c Hic), (Hc Hic). f_equal. now apply IHcs.
Qed.

Lemma remove_tab_in_para_no_tab (para : elem) :
  iter "w:tab" para = [] -> TopPage.remove_tab_in_para para = para.
Proof.
  intros H. unfold TopPage.remove_tab_in_para.
  destruct (iter "w:r" para) as [|r0 rs] eqn:Er; [reflexivity|].
  destruct (negb _); [reflexivity|].
  assert (Hstrip : forall q, update q (TopPage.remove_descendants "w:tab") para = para).
  { intros q. apply update_id. intros x Hx.
    apply remove_descendants_absent. now apply (iter_nil_get "w:tab" q para). }
  generalize (enumerate (r0 :: rs)). intros l.
  induction l as [|[i r] l IH]; simpl; [reflexivity|].
  destruct (get r para) as [run|]; [|exact IH].
  destruct (TopPage.run_has_label run); [|exact IH].
  rewrite Hstrip. destruct (Nat.ltb 0 i); [rewrite Hstrip|]; exact IH.
Qed.

(** X4: the tab fix only ever removes tab elements: an element that holds
    no tab element passes it unchanged, with or without the label. *)
Theorem tab_fix_without_tabs_unchanged (element : elem) :
  iter "w:tab" element = [] ->
  TopPage._remove_tab_before_販売名 element = element.
Proof.
  intros H. unfold TopPage._remove_tab_before_販売名.
  apply fold_update_id. intros p x Hp Hx.
  apply remove_tab_in_para_no_tab. now apply (iter_nil_get "w:tab" p element).
Qed.

Lemma tab_fix_without_tabs_unchanged_witness :
  let t s := Elem "w:t" [] (Some s) [] in
  let r cs := Elem "w:r" [] None cs in
  let element :=
    Elem "w:hdr" [] None [Elem "w:p" [] None [r [t "x"]; r [t "販売名 ABC"]]] in
  TopPage._remove_tab_before_販売名 element = element.
Proof.
  intros t r element.
  apply (tab_fix_without_tabs_unchanged element). reflexivity.
Defined.

(** ** Template Applier: sections *)

Lemma attr_set_present (k v : string) (a : list (string * string)) :
  attr_get k a = Some v -> attr_set k v a = a.
Proof.
  induction a as [|[k' v'] a IH]; simpl; [discriminate|].
  destruct (String.eqb k' k) eqn:E.
  - apply String.eqb_eq in E. subst k'. now intros [= ->].
  - intros H. now rewrite IH.
Qed.

Lemma set_attr_present (k v : string) (e : elem) :
  get_attr k e = Some v -> set_attr k v e = e.
Proof.
  destruct e as [tg a x cs]. unfold get_attr, set_attr. simpl.
  intros H. now rewrite attr_set_present.
Qed.

Lemma page_number_attributes_twice (pg : elem) :
  let f := fun pg => set_attr "w:start" "0" (set_attr "w:fmt" "numberInDash" pg) in
  f (f pg) = f pg.
Proof.
  intros f. unfold f.
  rewrite (set_attr_present "w:fmt" "numberInDash").
  - apply set_attr_present, get_attr_set_attr_same.
  - rewrite (get_attr_set_attr_other "w:start" "w:fmt") by discriminate.
    apply get_attr_set_attr_same.
Qed.

Lemma set_page_number_sectPr_twice (sectPr : elem) :
  TopPage.set_page_number_sectPr (TopPage.set_page_number_sectPr sectPr)
  = TopPage.set_page_number_sectPr sectPr.
Proof.
  unfold TopPage.set_page_number_sectPr. apply with_child_appended_twice.
  - intros e. now rewrite !tag_set_attr.
  - apply page_number_attributes_twice.
Qed.

Lemma copy_footers_section_twice (s : TopPage.section) :
  TopPage.copy_footers_section (TopPage.copy_footers_section s)
  = TopPage.copy_footers_section s.
Proof.
  destruct s as [flag sectPr fph h fpf f].
  unfold TopPage.copy_footers_section, TopPage._set_page_number_format. simpl.
  rewrite set_page_number_sectPr_twice. reflexivity.
Qed.

(** X5: rebuilding the footers is idempotent: a second [_copy_footers] on
    the sections the first one produced changes nothing; in particular no
    second page-number type and no second footer paragraph appears. *)
Theorem copy_footers_idempotent (target_sections : list TopPage.section) :
  TopPage._copy_footers (TopPage._copy_footers target_sections)
  = TopPage._copy_footers target_sections.
Proof.
  unfold TopPage._copy_footers. rewrite List.map_map.
  apply List.map_ext. intros s. apply copy_footers_section_twice.
Qed.

Lemma filter_not_tagged_update_first t f (l : list elem) :
  keeps_tag f ->
  List.filter (fun c => negb (has_tag t c)) (update_first (has_tag t) f l)
  = List.filter (fun c => negb (has_tag t c)) l.
Proof.
  intros Hf. induction l as [|x l IH]; simpl; [reflexivity|].
  destruct (has_tag t x) eqn:E; simpl.
  - now rewrite (keeps_tag_has_tag f t x Hf), E.
  - now rewrite E, IH.
Qed.

Lemma length_update_first (pr : elem -> bool) f (l : list elem) :
  List.length (update_first pr f l) = List.length l.
Proof.
  induction l as [|x l IH]; simpl; [reflexivity|].
  destruct (pr x); simpl; [reflexivity | now rewrite IH].
Qed.

(** X6: [_set_page_number_format] on section properties that already have
    a page-number type reuses it: the section properties keep their number
    of children, every other child stays as and where it was, only the
    first page-number type is touched, and it keeps its children, its text
    and every attribute besides format and start. *)
Theorem set_page_number_format_reuses_existing (sectPr pgNumType : elem) :
  find_child "w:pgNumType" sectPr = Some pgNumType ->
  let out := TopPage.set_page_number_sectPr sectPr in
  List.length (children out) = List.length (children sectPr) /\
  List.filter (fun c => negb (has_tag "w:pgNumType" c)) (children out)
    = List.filter (fun c => negb (has_tag "w:pgNumType" c)) (children sectPr) /\
  exists pgNumType',
    findall "w:pgNumType" out = pgNumType' :: List.tl (findall "w:pgNumType" sectPr) /\
    get_attr "w:fmt" pgNumType' = Some "numberInDash" /\
    get_attr "w:start" pgNumType' = Some "0" /\
    children pgNumType' = children pgNumType /\
    text pgNumType' = text pgNumType /\
    forall k, k <> "w:fmt" -> k <> "w:start" ->
              get_attr k pgNumType' = get_attr k pgNumType.
Proof.
  intros Hfind out.
  set (f := fun pg => set_attr "w:start" "0" (set_attr "w:fmt" "numberInDash" pg)).
  assert (Hf : keeps_tag f) by (intros e; unfold f; now rewrite !tag_set_attr).
  assert (Hout : out = set_children (update_first (has_tag "w:pgNumType") f (children sectPr))
                                    sectPr).
  { unfold out, TopPage.set_page_number_sectPr, with_child_appended. now rewrite Hfind. }
  rewrite Hout, children_set_children. split; [apply length_update_first|].
  split; [now apply filter_not_tagged_update_first|].
  exists (f pgNumType). split.
  - unfold findall. rewrite children_set_children, filter_update_first by exact Hf.
    unfold find_child in Hfind.
    assert (Hhd : forall l x, List.find (has_tag "w:pgNumType") l = Some x ->
                         exists r, List.filter (has_tag "w:pgNumType") l = x :: r).
    { induction l as [|y l IH]; intros x H; simpl in *; [discriminate|].
      destruct (has_tag "w:pgNumType" y); [injection H as ->; eauto | now apply IH]. }
    destruct (Hhd _ _ Hfind) as [r ->]. reflexivity.
  - unfold f. split; [|split; [|split; [|split]]].
    + rewrite (get_attr_set_attr_other "w:start" "w:fmt") by discriminate.
      apply get_attr_set_attr_same.
    + apply get_attr_set_attr_same.
    + now rewrite !children_set_attr.
    + clear. now destruct pgNumType.
    + intros k Hk1 Hk2. now rewrite !get_attr_set_attr_other by assumption.
Qed.

Lemma set_page_number_format_reuses_existing_witness :
  let pgNumType := Elem "w:pgNumType" [("w:fmt", "decimal"); ("w:chapStyle", "1")] None [] in
  let sectPr := Elem "w:sectPr" [] None
                  [Elem "w:pgSz" [("w:w", "11906")] None []; pgNumType;
                   Elem "w:cols" [] None []] in
  let out := TopPage.set_page_number_sectPr sectPr in
  List.length (children out) = List.length (children sectPr) /\
  List.filter (fun c => negb (has_tag "w:pgNumType" c)) (children out)
    = List.filter (fun c => negb (has_tag "w:pgNumType" c)) (children sectPr) /\
  exists pgNumType',
    findall "w:pgNumType" out = pgNumType' :: List.tl (findall "w:pgNumType" sectPr) /\
    get_attr "w:fmt" pgNumType' = Some "numberInDash" /\
    get_attr "w:start" pgNumType' = Some "0" /\
    children pgNumType' = children pgNumType /\
    text pgNumType' = text pgNumType /\
    forall k, k <> "w:fmt" -> k <> "w:start" ->
              get_attr k pgNumType' = get_attr k pgNumType.
Proof.
  intros pgNumType sectPr.
  apply (set_page_number_format_reuses_existing sectPr pgNumType). reflexivity.
Defined.

Lemma copy_steps_commute_section variables (t s : TopPage.section) :
  TopPage.copy_footers_section (TopPage.copy_headers_section variables t s)
  = TopPage.copy_headers_section variables t (TopPage.copy_footers_section s).
Proof. reflexivity. Qed.

Lemma copy_steps_commute_from variables (template_sections : list TopPage.section) :
  forall (target_sections : list TopPage.section) (i : nat),
    option_map TopPage._copy_footers
      (TopPage.copy_headers_from variables template_sections i target_sections)
    = TopPage.copy_headers_from variables template_sections i
        (TopPage._copy_footers target_sections).
Proof.
  induction target_sections as [|s rest IH]; intros i; simpl; [reflexivity|].
  destruct (TopPage.py_getitem template_sections _) as [t|]; [|reflexivity].
  rewrite <- IH.
  destruct (TopPage.copy_headers_from variables template_sections (S i) rest);
    reflexivity.
Qed.

(** X7: the first two steps of [format] do not interfere: copying the
    headers and then rebuilding the footers gives the sections that
    rebuilding the footers first and copying the headers afterwards gives,
    and fails in the same cases. *)
Theorem copy_headers_then_footers_commute
  (variables : list (string * string))
  (template_sections target_sections : list TopPage.section) :
  option_map TopPage._copy_footers
    (TopPage._copy_headers variables template_sections target_sections)
  = TopPage._copy_headers variables template_sections
      (TopPage._copy_footers target_sections).
Proof. apply copy_steps_commute_from. Qed.

(** X8: [_copy_headers] raises (IndexError) exactly when the template has
    no section while the target has at least one; in every other case it
    returns as many sections as the target has. *)
Theorem copy_headers_fails_iff_template_empty
  (variables : list (string * string))
  (template_sections target_sections : list TopPage.section) :
  (TopPage._copy_headers variables template_sections target_sections = None
   <-> template_sections = [] /\ target_sections <> []) /\
  (forall out,
      TopPage._copy_headers variables template_sections target_sections = Some out ->
      List.length out = List.length target_sections).
Proof.
  unfold TopPage._copy_headers.
  destruct template_sections as [|t ts].
  - destruct target_sections as [|s rest]; simpl.
    + split; [split; [discriminate | intros [_ H]; congruence]|].
      now intros out [= <-].
    + split; [split; [intros _; split; [reflexivity | discriminate] | reflexivity]|].
      discriminate.
  - rewrite (copy_headers_from_paired variables (t :: ts) t) by discriminate.
    split; [split; [discriminate | intros [H _]; discriminate]|].
    intros out [= <-]. rewrite List.length_map, List.length_combine, List.length_seq.
    apply Nat.min_id.
Qed.

(** ** Template Applier: cover page, further *)

Section CoverMore.

Variable tostring : elem -> string.
Variable variables : list (string * string).

Lemma cover_scan_twice (l : list TopPage.obj) :
  TopPage.cover_scan tostring (TopPage.cover_scan tostring l)
  = TopPage.cover_scan tostring l.
Proof.
  induction l as [|o l IH]; simpl; [reflexivity|].
  destruct (has_tag "w:p" (snd o)) eqn:Ep.
  - destruct (TopPage.has_page_break tostring (snd o)) eqn:Eb; simpl;
      rewrite Ep, Eb; [reflexivity | now rewrite IH].
  - destruct (has_tag "w:tbl" (snd o)) eqn:Et; simpl.
    + now rewrite Ep, Et, IH.
    + destruct (has_tag "w:sectPr" (snd o)) eqn:Es; simpl; [reflexivity|].
      now rewrite Ep, Et, Es, IH.
Qed.

(** the scan looks at the elements only, not at which objects they are *)
Lemma cover_scan_elements (l : list TopPage.obj) : forall l',
  List.map snd l = List.map snd l' ->
  List.map snd (TopPage.cover_scan tostring l)
  = List.map snd (TopPage.cover_scan tostring l').
Proof.
  induction l as [|o l IH]; intros [|o' l'] H; simpl in H; try discriminate;
    [reflexivity|].
  injection H as Ho Hl. simpl. rewrite <- Ho.
  destruct (has_tag "w:p" (snd o)).
  - destruct (TopPage.has_page_break tostring (snd o)); simpl; rewrite Ho;
      [reflexivity | f_equal; now apply IH].
  - destruct (has_tag "w:tbl" (snd o)); simpl; [rewrite Ho; f_equal; now apply IH|].
    destruct (has_tag "w:sectPr" (snd o)); simpl;
      [reflexivity | rewrite Ho; f_equal; now apply IH].
Qed.

(** X9: the cover scan is idempotent: scanning a body made of the cover
    elements alone returns all of them, so the cover of a cover is that
    cover. *)
Theorem cover_of_cover_is_cover (body : list elem) :
  List.map snd
    (TopPage._get_cover_page_elements tostring
       (List.map snd (TopPage._get_cover_page_elements tostring body)))
  = List.map snd (TopPage._get_cover_page_elements tostring body).
Proof.
  unfold TopPage._get_cover_page_elements.
  rewrite (cover_scan_elements
             (TopPage.body_objects
                (List.map snd (TopPage.cover_scan tostring (TopPage.body_objects body))))
             (TopPage.cover_scan tostring (TopPage.body_objects body)))
    by apply map_snd_body_objects.
  now rewrite cover_scan_twice.
Qed.

Lemma cover_copies_no_flag (l : list elem) :
  cover_copies variables false l
  = List.map (TopPage._replace_variables_in_element variables) l.
Proof.
  induction l as [|e l IH]; simpl; [reflexivity|].
  now rewrite Bool.andb_false_r, IH.
Qed.

Lemma has_tag_replace_variables t (e : elem) :
  has_tag t (TopPage._replace_variables_in_element variables e) = has_tag t e.
Proof. unfold has_tag. now rewrite tag_replace_variables_in_element. Qed.

Lemma cover_copies_first_table (pre post : list elem) (tbl : elem) :
  List.forallb (fun e => negb (has_tag "w:tbl" e)) pre = true ->
  has_tag "w:tbl" tbl = true ->
  cover_copies variables true (pre ++ tbl :: post)
  = List.map (TopPage._replace_variables_in_element variables) pre
    ++ TopPage._set_table_column_widths 45 135
         (TopPage._replace_variables_in_element variables tbl)
    :: List.map (TopPage._replace_variables_in_element variables) post.
Proof.
  intros Hpre Htbl. induction pre as [|e pre IH]; simpl.
  - rewrite has_tag_replace_variables, Htbl. simpl. now rewrite cover_copies_no_flag.
  - simpl in Hpre. apply andb_prop in Hpre. destruct Hpre as [He Hpre].
    apply negb_true_iff in He.
    rewrite has_tag_replace_variables, He. simpl. now rewrite IH.
Qed.

(** X10: of the copied cover elements exactly one is sized, the first table
    among them, wherever it stands; every element before it and every
    element after it, later tables included, is inserted as its
    variable-substituted copy and nothing more. *)
Theorem replace_cover_page_sizes_first_table_only
  (template_body target_body pre post : list elem) (tbl : elem) :
  List.map snd (TopPage._get_cover_page_elements tostring template_body)
    = pre ++ tbl :: post ->
  List.forallb (fun e => negb (has_tag "w:tbl" e)) pre = true ->
  has_tag "w:tbl" tbl = true ->
  TopPage._replace_cover_page tostring variables template_body target_body
  = Some (List.map (TopPage._replace_variables_in_element variables) pre
          ++ TopPage._set_table_column_widths 45 135
               (TopPage._replace_variables_in_element variables tbl)
          :: List.map (TopPage._replace_variables_in_element variables) post
          ++ List.skipn
               (List.length (TopPage._get_cover_page_elements tostring target_body))
               target_body).
Proof.
  intros Hcover Hpre Htbl.
  rewrite replace_cover_page_splice, Hcover.
  rewrite (cover_copies_first_table pre post tbl Hpre Htbl).
  now rewrite <- List.app_assoc.
Qed.

(** a template cover without any table is copied with substitution only *)
Lemma cover_copies_no_table (l : list elem) :
  List.forallb (fun e => negb (has_tag "w:tbl" e)) l = true ->
  cover_copies variables true l
  = List.map (TopPage._replace_variables_in_element variables) l.
Proof.
  induction l as [|e l IH]; simpl; [reflexivity|].
  intros H. apply andb_prop in H. destruct H as [He Hl].
  apply negb_true_iff in He. rewrite has_tag_replace_variables, He. simpl.
  now rewrite IH.
Qed.

End CoverMore.

Lemma replace_cover_page_sizes_first_table_only_witness :
  let cell := Elem "w:tc" [] None [Elem "w:p" [] None []] in
  let tbl := Elem "w:tbl" [] None [Elem "w:tr" [] None [cell; cell]] in
  let title := Elem "w:p" [] None [] in
  let variables := [("DocCode", "D-001")] in
  let rv := TopPage._replace_variables_in_element variables in
  TopPage._replace_cover_page (fun _ => "") variables
    [title; tbl; tbl; Elem "w:sectPr" [] None []]
    [title; Elem "w:sectPr" [] None []]
  = Some (List.map rv [title]
          ++ TopPage._set_table_column_widths 45 135 (rv tbl)
          :: List.map rv [tbl]
          ++ List.skipn
               (List.length (TopPage._get_cover_page_elements (fun _ => "")
                               [title; Elem "w:sectPr" [] None []]))
               [title; Elem "w:sectPr" [] None []]).
Proof.
  intros cell tbl title variables rv.
  apply (replace_cover_page_sizes_first_table_only (fun _ => "") variables
           [title; tbl; tbl; Elem "w:sectPr" [] None []]
           [title; Elem "w:sectPr" [] None []] [title] [tbl] tbl);
    reflexivity.
Defined.

(** ** A later mutation that makes an earlier one irrelevant *)

Section Absorb.

Variables f g : elem -> elem.
Hypothesis f_keeps_tag : keeps_tag f.
Hypothesis g_absorbs_f : forall x, g (f x) = g x.

Lemma update_first_absorb t (l : list elem) :
  update_first (has_tag t) g (update_first (has_tag t) f l)
  = update_first (has_tag t) g l.
Proof.
  induction l as [|x l IH]; simpl; [reflexivity|].
  destruct (has_tag t x) eqn:E; simpl.
  - now rewrite (keeps_tag_has_tag f t x f_keeps_tag), E, g_absorbs_f.
  - now rewrite E, IH.
Qed.

Lemma with_child_first_absorb t (e : elem) :
  with_child_first t g (with_child_first t f e) = with_child_first t g e.
Proof.
  destruct (find_child_with_child_first t f e f_keeps_tag) as [c Hc].
  unfold with_child_first at 1. rewrite Hc.
  unfold with_child_first, find_child in *.
  destruct (List.find (has_tag t) (children e)) eqn:E.
  - rewrite children_set_children, set_children_twice.
    now rewrite update_first_absorb.
  - rewrite children_set_children, set_children_twice. simpl.
    rewrite (keeps_tag_has_tag f t _ f_keeps_tag). unfold has_tag at 1. simpl.
    now rewrite String.eqb_refl, g_absorbs_f.
Qed.

Lemma with_child_appended_absorb t (e : elem) :
  with_child_appended t g (with_child_appended t f e) = with_child_appended t g e.
Proof.
  destruct (find_child_with_child_appended t f e f_keeps_tag) as [c Hc].
  unfold with_child_appended at 1. rewrite Hc.
  unfold with_child_appended, find_child, append_child in *.
  destruct (List.find (has_tag t) (children e)) eqn:E.
  - rewrite children_set_children, set_children_twice.
    now rewrite update_first_absorb.
  - rewrite children_set_children, set_children_twice.
    rewrite update_first_app_none by exact E. simpl.
    rewrite (keeps_tag_has_tag f t _ f_keeps_tag). unfold has_tag at 1. simpl.
    now rewrite String.eqb_refl, g_absorbs_f.
Qed.

Lemma map_tagged_absorb t (e : elem) :
  map_tagged t g (map_tagged t f e) = map_tagged t g e.
Proof.
  unfold map_tagged.
  rewrite children_set_children, set_children_twice. f_equal.
  rewrite List.map_map. apply List.map_ext. intros c.
  destruct (has_tag t c) eqn:E.
  - now rewrite (keeps_tag_has_tag f t c f_keeps_tag), E, g_absorbs_f.
  - now rewrite E.
Qed.

End Absorb.

Lemma attr_set_absorb (k v v' : string) (a : list (string * string)) :
  attr_set k v' (attr_set k v a) = attr_set k v' a.
Proof.
  induction a as [|[k0 v0] a IH]; simpl.
  - now rewrite String.eqb_refl.
  - destruct (String.eqb k0 k) eqn:E; simpl.
    + now rewrite String.eqb_refl.
    + now rewrite E, IH.
Qed.

(** writing two attributes a second time, the first of them with a new
    value, is writing them once with the new value *)
Lemma attr_set_pair_absorb (k k' v1 v2 u : string) (a : list (string * string)) :
  k <> k' ->
  attr_set k' u (attr_set k v2 (attr_set k' u (attr_set k v1 a)))
  = attr_set k' u (attr_set k v2 a).
Proof.
  intros Hne.
  assert (Hkk' : String.eqb k k' = false) by now apply String.eqb_neq.
  assert (Hk'k : String.eqb k' k = false) by (apply String.eqb_neq; congruence).
  induction a as [|[k0 v0] a IH].
  - cbn [attr_set]. rewrite Hkk'. cbn [attr_set]. rewrite !String.eqb_refl.
    cbn [attr_set]. rewrite Hkk'. cbn [attr_set]. now rewrite String.eqb_refl.
  - cbn [attr_set]. destruct (String.eqb k0 k) eqn:E.
    + apply String.eqb_eq in E. subst k0.
      cbn [attr_set]. rewrite Hkk'. cbn [attr_set]. rewrite String.eqb_refl.
      cbn [attr_set]. rewrite Hkk'. now rewrite attr_set_set_same.
    + cbn [attr_set]. destruct (String.eqb k0 k') eqn:E'.
      * apply String.eqb_eq in E'. subst k0.
        cbn [attr_set]. rewrite Hk'k. cbn [attr_set]. rewrite String.eqb_refl.
        now rewrite attr_set_absorb.
      * cbn [attr_set]. rewrite E. cbn [attr_set]. rewrite E'. now rewrite IH.
Qed.

Lemma set_width_absorb (w1 w2 : Z) (e : elem) :
  TopPage.set_width w2 (TopPage.set_width w1 e) = TopPage.set_width w2 e.
Proof.
  destruct e as [tg a x cs]. unfold TopPage.set_width, set_attr. simpl.
  f_equal. now apply attr_set_pair_absorb.
Qed.

(** X11: for the width of a cell the last write wins: setting a width on a
    cell whose width was set before gives the cell that setting the new
    width alone gives; no second properties or width element is left
    behind. *)
Theorem set_cell_width_last_wins (w1 w2 : Z) (tc : elem) :
  TopPage._set_cell_width w2 (TopPage._set_cell_width w1 tc)
  = TopPage._set_cell_width w2 tc.
Proof.
  unfold TopPage._set_cell_width. apply with_child_first_absorb.
  - apply keeps_tag_with_child_first.
  - intros x. apply with_child_first_absorb.
    + apply keeps_tag_set_width.
    + apply set_width_absorb.
Qed.

Lemma filter_not_tagged_with_child_first t f (e : elem) :
  keeps_tag f ->
  List.filter (fun c => negb (has_tag t c)) (children (with_child_first t f e))
  = List.filter (fun c => negb (has_tag t c)) (children e).
Proof.
  intros Hf. unfold with_child_first.
  destruct (find_child t e); rewrite children_set_children.
  - now apply filter_not_tagged_update_first.
  - simpl. rewrite (keeps_tag_has_tag f t _ Hf). unfold has_tag at 1. simpl.
    now rewrite String.eqb_refl.
Qed.

Lemma find_child_with_child_first_some t f (e c : elem) :
  keeps_tag f -> find_child t e = Some c ->
  find_child t (with_child_first t f e) = Some (f c).
Proof.
  intros Hf Hc. unfold with_child_first. rewrite Hc.
  unfold find_child in *. now rewrite children_set_children, find_update_first, Hc.
Qed.

(** X12: setting a cell's width leaves the cell's content alone: every
    child of the cell other than its properties stays as and where it was,
    and properties the cell already had keep every child other than the
    width element. *)
Theorem set_cell_width_keeps_content (w : Z) (tc : elem) :
  let out := TopPage._set_cell_width w tc in
  List.filter (fun c => negb (has_tag "w:tcPr" c)) (children out)
    = List.filter (fun c => negb (has_tag "w:tcPr" c)) (children tc) /\
  forall tcPr,
    find_child "w:tcPr" tc = Some tcPr ->
    exists tcPr',
      find_child "w:tcPr" out = Some tcPr' /\
      List.filter (fun c => negb (has_tag "w:tcW" c)) (children tcPr')
        = List.filter (fun c => negb (has_tag "w:tcW" c)) (children tcPr).
Proof.
  intros out. unfold out, TopPage._set_cell_width. split.
  - apply filter_not_tagged_with_child_first, keeps_tag_with_child_first.
  - intros tcPr H. eexists. split.
    + apply find_child_with_child_first_some;
        [apply keeps_tag_with_child_first | exact H].
    + apply filter_not_tagged_with_child_first, keeps_tag_set_width.
Qed.

Lemma filter_update_first_untouched (P pr : elem -> bool) f (l : list elem) :
  (forall x, pr x = true -> P x = false) ->
  (forall x, P (f x) = P x) ->
  List.filter P (update_first pr f l) = List.filter P l.
Proof.
  intros Hpr Hf. induction l as [|x l IH]; simpl; [reflexivity|].
  destruct (pr x) eqn:E; simpl.
  - now rewrite Hf, (Hpr x E).
  - now rewrite IH.
Qed.

Lemma filter_map_untouched (P pr : elem -> bool) f (l : list elem) :
  (forall x, pr x = true -> P x = false) ->
  (forall x, P (f x) = P x) ->
  List.filter P (List.map (fun c => if pr c then f c else c) l) = List.filter P l.
Proof.
  intros Hpr Hf. induction l as [|x l IH]; simpl; [reflexivity|].
  destruct (pr x) eqn:E; simpl.
  - now rewrite Hf, (Hpr x E).
  - now rewrite IH.
Qed.

Lemma filter_not_tagged_update_nth_tagged t f (l : list elem) :
  keeps_tag f ->
  forall n,
    List.filter (fun c => negb (has_tag t c)) (update_nth_tagged t n f l)
    = List.filter (fun c => negb (has_tag t c)) l.
Proof.
  intros Hf. induction l as [|x l IH]; intros n; simpl; [reflexivity|].
  destruct (has_tag t x) eqn:E.
  - destruct n as [|n]; simpl.
    + now rewrite (keeps_tag_has_tag f t x Hf), E.
    + now rewrite E, IH.
  - simpl. now rewrite E, IH.
Qed.

Lemma length_update_nth_tagged t f (l : list elem) : forall n,
  List.length (update_nth_tagged t n f l) = List.length l.
Proof.
  induction l as [|x l IH]; intros n; simpl; [reflexivity|].
  destruct (has_tag t x); [destruct n|]; simpl; now rewrite ?IH.
Qed.

Lemma update_first_two_frame t f1 f2 (e : elem) :
  keeps_tag f1 -> keeps_tag f2 ->
  List.skipn 2 (findall t (update_first_two t f1 f2 e)) = List.skipn 2 (findall t e) /\
  List.filter (fun c => negb (has_tag t c)) (children (update_first_two t f1 f2 e))
    = List.filter (fun c => negb (has_tag t c)) (children e) /\
  List.length (children (update_first_two t f1 f2 e)) = List.length (children e).
Proof.
  intros H1 H2. split; [|split].
  - rewrite findall_update_first_two by assumption.
    now destruct (findall t e) as [|c1 [|c2 r]].
  - unfold update_first_two.
    destruct (Nat.leb 2 (List.length (findall t e)));
      destruct (Nat.leb 1 (List.length (findall t e)));
      rewrite ?children_set_children, ?filter_not_tagged_update_nth_tagged by assumption;
      rewrite ?children_set_children, ?filter_not_tagged_update_nth_tagged by assumption;
      reflexivity.
  - unfold update_first_two.
    destruct (Nat.leb 2 (List.length (findall t e)));
      destruct (Nat.leb 1 (List.length (findall t e)));
      rewrite ?children_set_children, ?length_update_nth_tagged;
      rewrite ?children_set_children, ?length_update_nth_tagged;
      reflexivity.
Qed.

Lemma length_children_with_existing_child t f (e : elem) :
  List.length (children (with_existing_child t f e)) = List.length (children e).
Proof.
  unfold with_existing_child. destruct (find_child t e); [|reflexivity].
  now rewrite children_set_children, length_update_first.
Qed.

Lemma Forall2_map_right {A} (P : A -> A -> Prop) (h : A -> A) (l : list A) :
  (forall x, P x (h x)) -> List.Forall2 P l (List.map h l).
Proof. intros H. induction l; simpl; constructor; auto. Qed.

(** X13: sizing a table touches the table properties, the first two cells
    of each row and the first two grid columns, and nothing else: the table
    keeps its number of children, every child that is neither properties,
    row nor grid stays as and where it was, there are as many rows as
    before, and each row keeps its cells from the third on and every child
    that is not a cell. *)
Theorem set_table_column_widths_frame (col1_mm col2_mm : Z) (tbl : elem) :
  let out := TopPage._set_table_column_widths col1_mm col2_mm tbl in
  let other c := negb (has_tag "w:tblPr" c) && negb (has_tag "w:tr" c)
                 && negb (has_tag "w:tblGrid" c) in
  List.length (children out) = List.length (children tbl) /\
  List.filter other (children out) = List.filter other (children tbl) /\
  List.Forall2
    (fun tr tr' =>
       List.skipn 2 (findall "w:tc" tr') = List.skipn 2 (findall "w:tc" tr) /\
       List.filter (fun c => negb (has_tag "w:tc" c)) (children tr')
         = List.filter (fun c => negb (has_tag "w:tc" c)) (children tr))
    (findall "w:tr" tbl) (findall "w:tr" out).
Proof.
  intros out other. unfold out, TopPage._set_table_column_widths.
  set (rows := TopPage.set_row_widths (TopPage.twips col1_mm) (TopPage.twips col2_mm)).
  set (grid := TopPage.set_grid_widths (TopPage.twips col1_mm) (TopPage.twips col2_mm)).
  set (props := TopPage.set_tblPr (TopPage.twips col1_mm + TopPage.twips col2_mm)).
  assert (Hrows : keeps_tag rows) by apply keeps_tag_set_row_widths.
  assert (Hgrid : keeps_tag grid) by apply keeps_tag_set_grid_widths.
  assert (Hprops : keeps_tag props) by apply keeps_tag_set_tblPr.
  assert (Hother : forall f, keeps_tag f -> forall x, other (f x) = other x).
  { intros f Hf x. unfold other. now rewrite !(keeps_tag_has_tag f _ x Hf). }
  split; [|split].
  - rewrite length_children_with_existing_child. unfold map_tagged.
    rewrite children_set_children, List.length_map.
    apply length_children_with_existing_child.
  - assert (Hwec : forall t f e,
              keeps_tag f -> (forall x, has_tag t x = true -> other x = false) ->
              List.filter other (children (with_existing_child t f e))
              = List.filter other (children e)).
    { intros t f e Hf Ht. unfold with_existing_child.
      destruct (find_child t e); [|reflexivity].
      rewrite children_set_children.
      apply filter_update_first_untouched; [exact Ht | now apply Hother]. }
    rewrite Hwec; [| exact Hgrid |].
    2:{ intros x Hx. unfold other. rewrite Hx. now rewrite Bool.andb_false_r. }
    unfold map_tagged. rewrite children_set_children.
    rewrite filter_map_untouched; [| | now apply Hother].
    2:{ intros x Hx. unfold other. rewrite Hx. simpl. now rewrite Bool.andb_false_r. }
    apply Hwec; [exact Hprops|].
    intros x Hx. unfold other. now rewrite Hx.
  - rewrite findall_with_existing_child_other by (assumption || discriminate).
    rewrite findall_map_tagged_same by exact Hrows.
    rewrite findall_with_existing_child_other by (assumption || discriminate).
    apply Forall2_map_right. intros tr.
    destruct (update_first_two_frame "w:tc"
                (TopPage._set_cell_width (TopPage.twips col1_mm))
                (TopPage._set_cell_width (TopPage.twips col2_mm)) tr)
      as [Hskip [Hfilter _]];
      try (unfold TopPage._set_cell_width; apply keeps_tag_with_child_first).
    split; assumption.
Qed.

(** ** Header Recolorer, further *)

Module TableTitleMore.
Import TableTitle.

Lemma replace_tagged_absorb t x1 x2 e :
  has_tag t x1 = true ->
  append_child x2 (remove_children t (append_child x1 (remove_children t e)))
  = append_child x2 (remove_children t e).
Proof.
  intros Hx. unfold append_child, remove_children.
  rewrite !children_set_children, !set_children_twice. f_equal.
  rewrite List.filter_app, filter_idem. simpl. rewrite Hx. simpl.
  now rewrite List.app_nil_r.
Qed.

Lemma replace_color_absorb c1 c2 e :
  replace_color c2 (replace_color c1 e) = replace_color c2 e.
Proof. apply replace_tagged_absorb. reflexivity. Qed.

Lemma set_run_color_absorb c1 c2 r :
  set_run_color c2 (set_run_color c1 r) = set_run_color c2 r.
Proof.
  apply with_child_first_absorb;
    [apply TableTitleFacts.keeps_tag_replace_color | apply replace_color_absorb].
Qed.

Lemma set_paragraph_run_color_absorb c1 c2 p :
  set_paragraph_run_color c2 (set_paragraph_run_color c1 p)
  = set_paragraph_run_color c2 p.
Proof.
  unfold set_paragraph_run_color.
  rewrite <- (with_child_first_map_tagged "w:r" "w:pPr");
    [| apply TableTitleFacts.keeps_tag_set_run_color
     | apply keeps_tag_with_child_appended | discriminate].
  rewrite (map_tagged_absorb (set_run_color c1) (set_run_color c2));
    [| apply TableTitleFacts.keeps_tag_set_run_color | apply set_run_color_absorb].
  apply with_child_first_absorb; [apply keeps_tag_with_child_appended|].
  intros x. apply with_child_appended_absorb;
    [apply TableTitleFacts.keeps_tag_replace_color | apply replace_color_absorb].
Qed.

Lemma set_cell_shading_absorb c1 c2 tc :
  set_cell_shading c2 (set_cell_shading c1 tc) = set_cell_shading c2 tc.
Proof.
  apply with_child_first_absorb; [apply TableTitleFacts.keeps_tag_shade|].
  intros x. apply replace_tagged_absorb. reflexivity.
Qed.

Lemma process_cell_absorb bg1 fg1 bg2 fg2 tc :
  process_cell bg2 fg2 (process_cell bg1 fg1 tc) = process_cell bg2 fg2 tc.
Proof.
  unfold process_cell, set_cell_shading.
  rewrite (with_child_first_map_tagged "w:p" "w:tcPr");
    [| apply TableTitleFacts.keeps_tag_set_paragraph_run_color
     | apply TableTitleFacts.keeps_tag_shade | discriminate].
  rewrite (map_tagged_absorb (set_paragraph_run_color fg1) (set_paragraph_run_color fg2));
    [| apply TableTitleFacts.keeps_tag_set_paragraph_run_color
     | apply set_paragraph_run_color_absorb].
  f_equal. apply (set_cell_shading_absorb bg1 bg2 tc).
Qed.

Lemma process_row_absorb bg1 fg1 bg2 fg2 tr :
  process_row bg2 fg2 (process_row bg1 fg1 tr) = process_row bg2 fg2 tr.
Proof.
  apply map_tagged_absorb;
    [apply TableTitleFacts.keeps_tag_process_cell | apply process_cell_absorb].
Qed.

Lemma process_table_absorb bg1 fg1 bg2 fg2 tbl :
  process_table bg2 fg2 (process_table bg1 fg1 tbl) = process_table bg2 fg2 tbl.
Proof.
  unfold process_table at 1. rewrite TableTitleFacts.findall_process_table.
  unfold process_table.
  destruct (findall "w:tr" tbl) as [|row rows] eqn:E; simpl; [reflexivity|].
  rewrite set_children_twice, !update_nth_tagged_first.
  rewrite (update_first_absorb (process_row bg1 fg1) (process_row bg2 fg2));
    [reflexivity | apply TableTitleFacts.keeps_tag_process_row | apply process_row_absorb].
Qed.

End TableTitleMore.

(** X14: for the header colours the last run wins: recolouring a body that
    was recoloured before, with whatever colours, gives exactly the body
    that recolouring the original with the new colours gives; nothing of
    the earlier colours is left. *)
Theorem process_table_headers_last_colors_win
  (body : list elem) (bg1 fg1 bg2 fg2 : string) :
  TableTitle.process_table_headers
    (TableTitle.process_table_headers body bg1 fg1) bg2 fg2
  = TableTitle.process_table_headers body bg2 fg2.
Proof.
  unfold TableTitle.process_table_headers.
  rewrite List.map_map. apply List.map_ext. intros c.
  destruct (has_tag "w:tbl" c) eqn:E.
  - rewrite (keeps_tag_has_tag _ "w:tbl" c
               (TableTitleFacts.keeps_tag_process_table bg1 fg1)), E.
    apply TableTitleMore.process_table_absorb.
  - now rewrite E.
Qed.

(** X15: recolouring touches tables only, and in a table only rows: every
    body element that is not a table comes back as it was (so a document
    without tables is unchanged), and a table keeps its attributes, its
    number of children and every child that is not a row, as and where it
    was. *)
Theorem process_table_headers_frame (body : list elem) (bg fg : string) :
  List.Forall2
    (fun e e' =>
       if has_tag "w:tbl" e
       then attrib e' = attrib e /\
            List.length (children e') = List.length (children e) /\
            List.filter (fun c => negb (has_tag "w:tr" c)) (children e')
              = List.filter (fun c => negb (has_tag "w:tr" c)) (children e)
       else e' = e)
    body (TableTitle.process_table_headers body bg fg).
Proof.
  unfold TableTitle.process_table_headers.
  apply Forall2_map_right. intros e.
  destruct (has_tag "w:tbl" e); [|reflexivity].
  unfold TableTitle.process_table.
  destruct (Nat.ltb 0 (List.length (findall "w:tr" e))); [|now repeat split].
  rewrite children_set_children. split; [now destruct e|]. split.
  - apply length_update_nth_tagged.
  - apply filter_not_tagged_update_nth_tagged, TableTitleFacts.keeps_tag_process_row.
Qed.

Lemma children_with_child_first_none t f (e : elem) :
  find_child t e = None ->
  children (with_child_first t f e) = f (OxmlElement t) :: children e.
Proof.
  intros H. unfold with_child_first. rewrite H. apply children_set_children.
Qed.

(** X16: [set_cell_shading] changes the shading and nothing else: every
    child of the cell other than its properties stays as and where it was;
    properties the cell already has keep all their children other than
    shadings, in order, and get the new shading as last child; a cell
    without properties gets them as its first child, holding the shading
    alone. *)
Theorem set_cell_shading_frame (color : string) (tc : elem) :
  let out := TableTitle.set_cell_shading color tc in
  let shd := Elem "w:shd" [("w:val", "clear"); ("w:color", "auto"); ("w:fill", color)]
                  None [] in
  List.filter (fun c => negb (has_tag "w:tcPr" c)) (children out)
    = List.filter (fun c => negb (has_tag "w:tcPr" c)) (children tc) /\
  match find_child "w:tcPr" tc with
  | Some tcPr =>
      exists tcPr',
        find_child "w:tcPr" out = Some tcPr' /\
        attrib tcPr' = attrib tcPr /\
        children tcPr'
          = List.filter (fun c => negb (has_tag "w:shd" c)) (children tcPr) ++ [shd]
  | None => children out = Elem "w:tcPr" [] None [shd] :: children tc
  end.
Proof.
  intros out shd. unfold out, TableTitle.set_cell_shading. split.
  - apply filter_not_tagged_with_child_first, TableTitleFacts.keeps_tag_shade.
  - destruct (find_child "w:tcPr" tc) as [tcPr|] eqn:E.
    + eexists. split.
      * apply find_child_with_child_first_some;
          [apply TableTitleFacts.keeps_tag_shade | exact E].
      * unfold append_child, remove_children.
        rewrite !children_set_children. split; [now destruct tcPr | reflexivity].
    + now rewrite children_with_child_first_none.
Qed.

(** X17: [set_paragraph_run_color] leaves the content of the paragraph
    alone: the paragraph has the same runs in the same places, every run
    keeps all its children other than its run properties (its text among
    them), and every child of the paragraph that is neither a run nor the
    paragraph properties stays as and where it was. *)
Theorem set_paragraph_run_color_keeps_content (color : string) (p : elem) :
  let out := TableTitle.set_paragraph_run_color color p in
  List.Forall2
    (fun r r' =>
       List.filter (fun c => negb (has_tag "w:rPr" c)) (children r')
       = List.filter (fun c => negb (has_tag "w:rPr" c)) (children r))
    (findall "w:r" p) (findall "w:r" out) /\
  List.filter (fun c => negb (has_tag "w:pPr" c) && negb (has_tag "w:r" c)) (children out)
    = List.filter (fun c => negb (has_tag "w:pPr" c) && negb (has_tag "w:r" c))
                  (children p).
Proof.
  intros out. unfold out, TableTitle.set_paragraph_run_color. split.
  - rewrite findall_with_child_first_other;
      [| apply keeps_tag_with_child_appended | discriminate].
    rewrite findall_map_tagged_same by apply TableTitleFacts.keeps_tag_set_run_color.
    apply Forall2_map_right. intros r. unfold TableTitle.set_run_color.
    apply filter_not_tagged_with_child_first, TableTitleFacts.keeps_tag_replace_color.
  - set (other := fun c => negb (has_tag "w:pPr" c) && negb (has_tag "w:r" c)).
    assert (Hother : forall f, keeps_tag f -> forall x, other (f x) = other x).
    { intros f Hf x. unfold other. now rewrite !(keeps_tag_has_tag f _ x Hf). }
    unfold with_child_first.
    match goal with |- context [find_child "w:pPr" ?x] =>
      destruct (find_child "w:pPr" x) end;
      rewrite children_set_children.
    + rewrite filter_update_first_untouched;
        [| intros x Hx; unfold other; now rewrite Hx
         | apply Hother, keeps_tag_with_child_appended].
      unfold map_tagged. rewrite children_set_children.
      apply filter_map_untouched;
        [intros x Hx; unfold other; rewrite Hx; apply Bool.andb_false_r
        | apply Hother, TableTitleFacts.keeps_tag_set_run_color].
    + cbn [List.filter]. rewrite (Hother _ (keeps_tag_with_child_appended _ _)).
      replace (other (OxmlElement "w:pPr")) with false by reflexivity.
      unfold map_tagged. rewrite children_set_children.
      apply filter_map_untouched;
        [intros x Hx; unfold other; rewrite Hx; apply Bool.andb_false_r
        | apply Hother, TableTitleFacts.keeps_tag_set_run_color].
Qed.

(** ** Template Applier: what the substitution never touches *)

Lemma label_of_update_other (g : elem -> elem) (p q : path) (e : elem) :
  keeps_children g -> p <> q -> label_of (update p g e) q = label_of e q.
Proof.
  intros Hg Hne. unfold label_of.
  destruct (path_cases p q) as [->|[H|[[r [Hr ->]]|[r [Hr ->]]]]].
  - congruence.
  - now rewrite get_update_diverge.
  - rewrite !get_app, get_update_same.
    destruct (get p e) as [x|]; simpl; [|reflexivity].
    rewrite (get_below_keeps_children g r x); [reflexivity | apply Hg | exact Hr].
  - rewrite get_update_above by exact Hr.
    destruct (get q e) as [x|]; simpl; [|reflexivity]. now destruct x.
Qed.

Lemma tag_of_same_shape (e e' : elem) (q : path) :
  shape e = shape e' -> tag_of e q = tag_of e' q.
Proof.
  intros H. unfold tag_of.
  pose proof (get_shape q e) as H1. pose proof (get_shape q e') as H2.
  rewrite H in H1. rewrite H1 in H2.
  destruct (get q e) as [x|], (get q e') as [x'|]; simpl in *; try discriminate;
    [|reflexivity].
  injection H2 as H2. now rewrite <- (tag_shape x), <- (tag_shape x'), H2.
Qed.

Lemma text_fragment_is_text (para : elem) (t : path) :
  List.In t (TopPage.text_fragments para) -> tag_of para t = Some "w:t".
Proof.
  unfold TopPage.text_fragments. intros H.
  apply List.in_flat_map in H. destruct H as [r [Hr Ht]].
  destruct (get r para) as [run|] eqn:Erun; [|contradiction].
  apply List.in_map_iff in Ht. destruct Ht as [q [<- Hq]].
  destruct (iter_valid "w:t" run q Hq) as [x [Hx Htag]].
  unfold tag_of. now rewrite get_app, Erun, Hx, <- Htag.
Qed.

Lemma fold_blank_label (l : list path) (q : path) : forall e,
  ~ List.In q l ->
  label_of (List.fold_left (fun e t => update t (set_text "") e) l e) q = label_of e q.
Proof.
  induction l as [|a l IH]; intros e Hq; simpl; [reflexivity|].
  rewrite IH by (intros H; apply Hq; now right).
  apply label_of_update_other; [apply keeps_children_set_text|].
  intros ->. apply Hq. now left.
Qed.

(** the loop body changes objects with the tag [w:t] only *)
Lemma replace_variables_in_para_label variables (para : elem) (q : path) :
  tag_of para q <> Some "w:t" ->
  label_of (TopPage.replace_variables_in_para variables para) q = label_of para q.
Proof.
  intros Hq.
  assert (Hnot : ~ List.In q (TopPage.text_elements para)).
  { intros H. apply Hq. apply text_fragment_is_text.
    unfold TopPage.text_elements in H. now apply List.filter_In in H. }
  unfold TopPage.replace_variables_in_para.
  destruct (iter "w:r" para); [reflexivity|].
  destruct (negb _); [reflexivity|].
  destruct (TopPage.text_elements para) as [|t0 rest]; [reflexivity|].
  rewrite fold_blank_label by (intros H; apply Hnot; now right).
  apply label_of_update_other; [apply keeps_children_write_first|].
  intros ->. apply Hnot. now left.
Qed.

Lemma update_para_label variables (p q : path) (e : elem) :
  tag_of e q <> Some "w:t" ->
  label_of (update p (TopPage.replace_variables_in_para variables) e) q = label_of e q.
Proof.
  intros Hq. unfold label_of, tag_of in *.
  destruct (path_cases p q) as [->|[H|[[r [Hr ->]]|[r [Hr ->]]]]].
  - rewrite get_update_same. destruct (get q e) as [x|]; simpl in *; [|reflexivity].
    pose proof (replace_variables_in_para_label variables x []) as H.
    unfold label_of, tag_of in H. simpl in H. exact (H Hq).
  - now rewrite get_update_diverge.
  - rewrite get_app in Hq. rewrite !get_app, get_update_same.
    destruct (get p e) as [x|]; simpl in *; [|reflexivity].
    apply (replace_variables_in_para_label variables x r Hq).
  - rewrite get_update_above by exact Hr.
    destruct (get q e) as [x|]; simpl; [|reflexivity]. now destruct x.
Qed.

Lemma fold_update_para_label variables (ps : list path) (q : path) : forall e,
  tag_of e q <> Some "w:t" ->
  label_of (List.fold_left
              (fun e p => update p (TopPage.replace_variables_in_para variables) e) ps e) q
  = label_of e q.
Proof.
  induction ps as [|p ps IH]; intros e Hq; simpl; [reflexivity|].
  rewrite IH.
  - now apply update_para_label.
  - rewrite (tag_of_same_shape _ e); [exact Hq|].
    apply shape_update. intros x. apply shape_replace_variables_in_para.
Qed.

(** X18: variable substitution changes nothing but [w:t] elements: every
    object of the element that is not a [w:t] is still there afterwards, at
    the same place, with the same tag, the same attributes and the same
    text. *)
Theorem replace_variables_touches_text_elements_only
  (variables : list (string * string)) (element : elem) (q : path) (x : elem) :
  get q element = Some x ->
  tag x <> "w:t" ->
  exists x',
    get q (TopPage._replace_variables_in_element variables element) = Some x' /\
    tag x' = tag x /\ attrib x' = attrib x /\ text x' = text x.
Proof.
  intros Hget Htag.
  assert (Hq : tag_of element q <> Some "w:t").
  { unfold tag_of. rewrite Hget. simpl. congruence. }
  pose proof (fold_update_para_label variables (iter "w:p" element) q element Hq) as H.
  fold (TopPage._replace_variables_in_element variables element) in H.
  unfold label_of in H. rewrite Hget in H. simpl in H.
  destruct (get q (TopPage._replace_variables_in_element variables element)) as [x'|];
    [|discriminate].
  simpl in H. injection H as H1 H2 H3. now exists x'.
Qed.

Lemma replace_variables_touches_text_elements_only_witness :
  let variables := [("DocCode", "D-001"); ("DocName", "Spec"); ("Version", "1.0")] in
  let t s := Elem "w:t" [] (Some s) [] in
  let bold := Elem "w:rPr" [] None [Elem "w:b" [("w:val", "1")] None []] in
  let r cs := Elem "w:r" [("w:rsidR", "00A1")] None cs in
  let element := Elem "w:hdr" [] None [Elem "w:p" [] None [r [bold; t "$Doc"]; r [t "Code"]]] in
  exists x',
    get [0; 0] (TopPage._replace_variables_in_element variables element) = Some x' /\
    tag x' = tag (r [bold; t "$Doc"]) /\
    attrib x' = attrib (r [bold; t "$Doc"]) /\
    text x' = text (r [bold; t "$Doc"]).
Proof.
  intros variables t bold r element.
  apply (replace_variables_touches_text_elements_only variables element [0; 0]
           (r [bold; t "$Doc"])).
  - reflexivity.
  - discriminate.
Defined.
